(** * Administrator: the AI capability layer and its heuristic fallbacks

    A shallow embedding of
      - [src/ai/AIProvider.ts] and [src/ai/AIProviderFactory.ts],
      - [src/analyzers/AIAnalyzer.ts],
      - the README scoring of [src/analyzers/DocumentationAnalyzer.ts],
    together with the properties stated about them.

    Conventions.  A JavaScript string is the sequence of its UTF-16 code
    units; source-level strings are modelled by [string], one [ascii] per
    code unit, which covers the code units below 256.  A function that may
    throw (or an [async] function whose promise may reject) returns a
    [result].  Integral numbers are in [Z]. *)

From Stdlib Require Import ZArith QArith List String Ascii Bool Lia.
Import ListNotations.

Local Open Scope string_scope.
Local Open Scope Z_scope.

(** ** Exceptions *)

(** The exceptions that occur: [new Error(message)], the [TypeError] of a
    property read on [null], the [SyntaxError] of [JSON.parse]. *)
Inductive exn : Type :=
| Error (message : string)
| TypeError
| SyntaxError.

Inductive result (A : Type) : Type :=
| Return (a : A)
| Throw (e : exn).

Arguments Return {A} a.
Arguments Throw {A} e.

Definition bind {A B : Type} (m : result A) (f : A -> result B) : result B :=
  match m with
  | Return a => f a
  | Throw e => Throw e
  end.

(** [try { body } catch { handler }] *)
Definition try_catch {A : Type} (body : result A) (handler : exn -> result A)
  : result A :=
  match body with
  | Return a => Return a
  | Throw e => handler e
  end.

Notation "x <- m ;; k" := (bind m (fun x => k))
  (at level 61, m at next level, right associativity).

(** ** Strings *)

(** [s.includes(part)] *)
Fixpoint includes (s part : string) : bool :=
  prefix part s ||
  match s with
  | EmptyString => false
  | String _ rest => includes rest part
  end.

(** [!s] for a string: only the empty string is falsy. *)
Definition falsy_string (s : string) : bool :=
  match s with
  | EmptyString => true
  | String _ _ => false
  end.

Definition code (a : ascii) : N := N_of_ascii a.

Definition in_range (lo hi : N) (a : ascii) : bool :=
  ((lo <=? code a) && (code a <=? hi))%N.

(** [toLowerCase] on one code unit below 256: the letters A-Z and the
    Latin-1 capitals U+00C0-U+00DE (U+00D7, the multiplication sign, is not
    a letter) move 32 places up. *)
Definition lower_unit (a : ascii) : ascii :=
  if in_range 65 90 a
     || (in_range 192 222 a && negb (code a =? 215)%N)
  then ascii_of_N (code a + 32)
  else a.

(** [s.toLowerCase()] *)
Fixpoint toLowerCase (s : string) : string :=
  match s with
  | EmptyString => EmptyString
  | String a rest => String (lower_unit a) (toLowerCase rest)
  end.

(** ** [src/ai/AIProvider.ts] *)

Record AIAnalysisRequest : Type := {
  content : string;
  prompt : string;
  req_maxTokens : option Z;
  req_temperature : option Q
}.

Record AIAnalysisResponse : Type := {
  result_text : string;          (* [result] *)
  tokensUsed : option Z;
  resp_model : option string;
  resp_provider : string
}.

Record AIProviderConfig : Type := {
  provider : string;
  apiKey : string;
  model : option string;
  maxTokens : option Z;
  temperature : option Q
}.

(** The three classes implementing the [AIProvider] interface.  An instance
    holds what its constructor received: the key and the optional model. *)
Inductive provider_class : Type :=
| OpenAIProvider
| AnthropicProvider
| GeminiProvider.

Record AIProvider : Type := new_provider {
  class_of : provider_class;
  key_of : string;
  model_of : option string
}.

(** Modelled from the spec: [src/ai/providers/*.ts] are not among the
    sources; the display names are the ones of section 4.1 of the
    specification, asserted by the factory tests. *)
Definition getProviderName (p : AIProvider) : string :=
  match class_of p with
  | OpenAIProvider => "OpenAI"
  | AnthropicProvider => "Anthropic"
  | GeminiProvider => "Google Gemini"
  end.

(** What the promise of [fetch] settles to, as [validateCredentials] sees
    it: a response with its [ok] flag, or a rejection. *)
Inductive fetch_outcome : Type :=
| Resolved (ok : bool)
| Rejected (e : exn).

(** Modelled from the spec: [validateCredentials] of the adapters
    ([src/ai/providers/*.ts], not among the sources).  Section 4.2: it
    issues one lightweight authenticated request and maps HTTP success to
    [true], anything else, a thrown transport exception included, to
    [false].  [fetch p] is what the request of the adapter [p] settles
    to. *)
Definition probe_validateCredentials (fetch : AIProvider -> fetch_outcome)
    (p : AIProvider) : result bool :=
  try_catch
    (match fetch p with
     | Resolved ok => Return ok
     | Rejected e => Throw e
     end)
    (fun _ => Return false).

(** ** [src/ai/AIProviderFactory.ts] *)

Section Factory.

(** The behaviour of [validateCredentials] of an adapter: it belongs to
    the provider classes and to the network. *)
Variable validateCredentials : AIProvider -> result bool.

Definition create (config : AIProviderConfig) : result AIProvider :=
  if falsy_string (apiKey config) then
    Throw (Error ("API key is required for " ++ provider config ++ " provider"))
  else
    let name := toLowerCase (provider config) in
    if (name =? "openai")%string then
      Return (new_provider OpenAIProvider (apiKey config) (model config))
    else if (name =? "anthropic")%string then
      Return (new_provider AnthropicProvider (apiKey config) (model config))
    else if (name =? "gemini")%string then
      Return (new_provider GeminiProvider (apiKey config) (model config))
    else
      Throw (Error ("Unknown AI provider: " ++ provider config
                    ++ ". Supported providers: openai, anthropic, gemini")).

Definition getSupportedProviders : list string :=
  ["openai"; "anthropic"; "gemini"].

Definition validateProvider (config : AIProviderConfig) : result bool :=
  try_catch
    (p <- create config ;;
     validateCredentials p)
    (fun _ => Return false).

End Factory.

(** ** Regular expressions

    The regular-expression literals of the sources, kept as syntax trees and
    run by a backtracking matcher in the manner of [RegExp.prototype.test]
    (no [g] or [y] flag: the search starts at index 0). *)

Record flags : Type := { ignoreCase : bool; multiline : bool }.

Definition no_flags : flags := {| ignoreCase := false; multiline := false |}.
Definition flag_i : flags := {| ignoreCase := true; multiline := false |}.
Definition flag_m : flags := {| ignoreCase := false; multiline := true |}.

Inductive charset : Type :=
| Lit (c : ascii)                 (* a pattern character *)
| Space                           (* \s *)
| NotSpace                        (* \S *)
| Dot                             (* . *)
| Union (c1 c2 : charset).        (* [...] of two members *)

Inductive regex : Type :=
| Empty
| Chr (c : charset)
| Seq (r1 r2 : regex)
| Alt (r1 r2 : regex)             (* r1|r2 *)
| Star (greedy : bool) (r : regex)  (* r* and r*? *)
| Bol.                            (* ^ *)

(** r+ *)
Definition Plus (r : regex) : regex := Seq r (Star true r).

(** a run of pattern characters *)
Fixpoint Str (s : string) : regex :=
  match s with
  | EmptyString => Empty
  | String c EmptyString => Chr (Lit c)
  | String c rest => Seq (Chr (Lit c)) (Str rest)
  end.

(** LineTerminator: LF and CR (U+2028 and U+2029 lie above 255). *)
Definition is_line_terminator (a : ascii) : bool :=
  (code a =? 10)%N || (code a =? 13)%N.

(** WhiteSpace and LineTerminator below 256: TAB, LF, VT, FF, CR, SP, NBSP. *)
Definition is_space (a : ascii) : bool :=
  in_range 9 13 a || (code a =? 32)%N || (code a =? 160)%N.

(** Canonicalize of a code unit under the [i] flag (no [u] flag): its
    upper-case form when that is one code unit, except that a code unit
    from 128 on is never sent below 128.  Below 256: a-z and U+00E0-U+00FE
    (but U+00F7, the division sign) move 32 places down, U+00FF goes to
    U+0178 and U+00B5 to U+039C. *)
Definition canonicalize (a : ascii) : N :=
  if in_range 97 122 a
     || (in_range 224 254 a && negb (code a =? 247)%N)
  then (code a - 32)%N
  else if (code a =? 255)%N then 376%N
  else if (code a =? 181)%N then 924%N
  else code a.

Fixpoint unit_in (fl : flags) (cs : charset) (a : ascii) : bool :=
  match cs with
  | Lit c =>
      if ignoreCase fl then (canonicalize a =? canonicalize c)%N
      else (code a =? code c)%N
  | Space => is_space a
  | NotSpace => negb (is_space a)
  | Dot => negb (is_line_terminator a)
  | Union c1 c2 => unit_in fl c1 a || unit_in fl c2 a
  end.

(** [^]: at the start of the input, or, under the [m] flag, just after a
    line terminator.  [prev] is the code unit before the current index. *)
Definition at_line_start (fl : flags) (prev : option ascii) : bool :=
  match prev with
  | None => true
  | Some a => multiline fl && is_line_terminator a
  end.

(** The iterations of a star.  [step] runs the body once; an iteration that
    consumes nothing is refused, as in ECMAScript, so the length of the
    input is fuel enough.  The greedy star tries one more iteration before
    it tries to go on, the lazy one after. *)
Fixpoint star_loop
    (step : option ascii -> string -> (option ascii -> string -> bool) -> bool)
    (greedy : bool) (k : option ascii -> string -> bool)
    (fuel : nat) (prev : option ascii) (s : string) {struct fuel} : bool :=
  let more (_ : unit) :=
    match fuel with
    | O => false
    | S fuel' =>
        step prev s
          (fun prev' s' =>
             if (String.length s' <? String.length s)%nat
             then star_loop step greedy k fuel' prev' s'
             else false)
    end in
  if greedy
  then (if more tt then true else k prev s)
  else (if k prev s then true else more tt).

(** The matcher, in continuation-passing style: [run fl r prev s k] tries
    [r] at the head of [s] and hands each end point to [k], in the order a
    backtracking engine tries them. *)
Fixpoint run (fl : flags) (r : regex) (prev : option ascii) (s : string)
    (k : option ascii -> string -> bool) {struct r} : bool :=
  match r with
  | Empty => k prev s
  | Chr cs =>
      match s with
      | EmptyString => false
      | String a rest => if unit_in fl cs a then k (Some a) rest else false
      end
  | Seq r1 r2 => run fl r1 prev s (fun prev' s' => run fl r2 prev' s' k)
  | Alt r1 r2 => if run fl r1 prev s k then true else run fl r2 prev s k
  | Star greedy r1 => star_loop (run fl r1) greedy k (String.length s) prev s
  | Bol => if at_line_start fl prev then k prev s else false
  end.

(** Is there a match starting at the current index or at a later one? *)
Fixpoint search (fl : flags) (r : regex) (prev : option ascii) (s : string)
  : bool :=
  if run fl r prev s (fun _ _ => true) then true
  else
    match s with
    | EmptyString => false
    | String a rest => search fl r (Some a) rest
    end.

(** [/r/flags.test(s)] *)
Definition test (fl : flags) (r : regex) (s : string) : bool :=
  search fl r None s.

(** The literals of [DocumentationAnalyzer.calculateReadmeQuality]. *)

(** [/^#\s+.+/m] *)
Definition re_title : regex :=
  Seq Bol (Seq (Str "#") (Seq (Plus (Chr Space)) (Plus (Chr Dot)))).

(** [/##\s+(Installation|Install|Setup)/i] *)
Definition re_installation_section : regex :=
  Seq (Str "##")
    (Seq (Plus (Chr Space))
       (Alt (Str "Installation") (Alt (Str "Install") (Str "Setup")))).

(** [/##\s+(Usage|Example|Quick\s+Start)/i] *)
Definition re_usage_section : regex :=
  Seq (Str "##")
    (Seq (Plus (Chr Space))
       (Alt (Str "Usage")
          (Alt (Str "Example")
             (Seq (Str "Quick") (Seq (Plus (Chr Space)) (Str "Start")))))).

(** [/```[\s\S]*?```/] *)
Definition re_code_block : regex :=
  Seq (Str "```") (Seq (Star false (Chr (Union Space NotSpace))) (Str "```")).

(** [/\[.+\]\(.+\)/] *)
Definition re_link : regex :=
  Seq (Str "[") (Seq (Plus (Chr Dot)) (Seq (Str "](") (Seq (Plus (Chr Dot)) (Str ")")))).

(** [/!\[.*\]\(.*\)/] *)
Definition re_badge : regex :=
  Seq (Str "![")
    (Seq (Star true (Chr Dot)) (Seq (Str "](") (Seq (Star true (Chr Dot)) (Str ")")))).

(** The literals of [AIAnalyzer.calculateBasicReadmeScore], all under [i]. *)
Definition re_installation : regex := Str "installation".
Definition re_usage : regex := Str "usage".
Definition re_example : regex := Str "example".
Definition re_api_reference : regex := Alt (Str "api") (Str "reference").
Definition re_contributing : regex := Str "contributing".
Definition re_license : regex := Str "license".

(** ** The heuristic README scorers *)

(** [content.length] *)
Definition len (s : string) : Z := Z.of_nat (String.length s).

(** [DocumentationAnalyzer.calculateReadmeQuality]; [None] is [null]. *)
Definition calculateReadmeQuality (content : option string) : Z :=
  match content with
  | None => 0
  | Some content =>
      if falsy_string content then 0
      else
        let score := 0 in
        let maxScore := 100 in
        let score :=
          if len content >=? 500 then score + 20
          else if len content >=? 200 then score + 10
          else score in
        let score := if test flag_m re_title content then score + 10 else score in
        let score := if len content >? 100 then score + 10 else score in
        let score :=
          if test flag_i re_installation_section content then score + 15 else score in
        let score :=
          if test flag_i re_usage_section content then score + 15 else score in
        let score := if test no_flags re_code_block content then score + 10 else score in
        let score := if test no_flags re_link content then score + 10 else score in
        let score := if test no_flags re_badge content then score + 10 else score in
        Z.min score maxScore
  end.

(** [AIAnalyzer.calculateBasicReadmeScore] *)
Definition calculateBasicReadmeScore (content : string) : Z :=
  let score := 0 in
  let score := if len content >? 500 then score + 20 else score in
  let score := if len content >? 1500 then score + 10 else score in
  let score := if test flag_i re_installation content then score + 15 else score in
  let score := if test flag_i re_usage content then score + 15 else score in
  let score := if test flag_i re_example content then score + 10 else score in
  let score := if test flag_i re_api_reference content then score + 10 else score in
  let score := if test flag_i re_contributing content then score + 10 else score in
  let score := if test flag_i re_license content then score + 10 else score in
  Z.min score 100.

(** ** The heuristic roadmap *)

(** The context record of the roadmap operations.  [lastUpdate] is the time
    value of the [Date], in milliseconds since the epoch; [None] is the
    invalid date, whose [getTime()] is [NaN]. *)
Record RoadmapContext : Type := {
  technologies : list string;
  lastUpdate : option Z;
  hasTests : bool;
  hasCICD : bool
}.

(** [roadmap.push(item)] *)
Definition push (roadmap : list string) (item : string) : list string :=
  roadmap ++ [item].

(** [Math.floor((Date.now() - context.lastUpdate.getTime()) / (1000 * 60 * 60 * 24))];
    [None] is [NaN].  Time values are integers of magnitude at most
    8.64e15, so the subtraction is exact and the rounded quotient has the
    floor of the exact one. *)
Definition daysSinceUpdate (now : Z) (context : RoadmapContext) : option Z :=
  match lastUpdate context with
  | None => None
  | Some t => Some ((now - t) / (1000 * 60 * 60 * 24))
  end.

(** [days > bound], false when [days] is [NaN] *)
Definition exceeds (days : option Z) (bound : Z) : bool :=
  match days with
  | None => false
  | Some d => d >? bound
  end.

(** [AIAnalyzer.generateBasicRoadmap]; [now] is what [Date.now()] reads. *)
Definition generateBasicRoadmap (now : Z) (context : RoadmapContext)
  : list string :=
  let roadmap := [] in
  let roadmap :=
    if negb (hasTests context)
    then push roadmap "Immediate: Add automated testing (Jest/Mocha)"
    else roadmap in
  let roadmap :=
    if negb (hasCICD context)
    then push roadmap "Immediate: Set up CI/CD with GitHub Actions"
    else roadmap in
  let daysSinceUpdate := daysSinceUpdate now context in
  let roadmap :=
    if exceeds daysSinceUpdate 180
    then push roadmap "Short-term: Update dependencies to latest versions"
    else roadmap in
  let roadmap := push roadmap "Long-term: Implement comprehensive documentation" in
  let roadmap := push roadmap "Long-term: Increase test coverage to 80%+" in
  roadmap.

(** ** JavaScript values and [JSON.parse] *)

(** A number read from a decimal literal, kept exactly:
    (-1)^negative * digits * 10^exponent. *)
Inductive number : Type :=
| Num (negative : bool) (digits : N) (exponent : Z).

Definition of_Z (z : Z) : number := Num (z <? 0) (Z.abs_N z) 0.

(** The values [JSON.parse] builds, and [undefined].  A decoded string may
    hold any code unit (through a \u escape), so it is a list of code
    units.  An object keeps its members in source order. *)
#[warnings="-register-all"]
Inductive jsval : Type :=
| JUndefined
| JNull
| JBool (b : bool)
| JNumber (n : number)
| JString (units : list N)
| JArray (items : list jsval)
| JObject (members : list (list N * jsval)).

Definition units_of (s : string) : list N :=
  map code (list_ascii_of_string s).

(** A string array of the program as a value. *)
Definition of_strings (l : list string) : jsval :=
  JArray (map (fun s => JString (units_of s)) l).

(** Does the literal denote a double that is +0 or -0?  It does when its
    digits are zero, and when it is so small that it rounds to zero: at
    most 2^-1075, half the least positive double. *)
Definition is_zero (n : number) : bool :=
  match n with
  | Num _ d e =>
      (d =? 0)%N
      || ((e <? 0) && (Z.of_N d * 2 ^ 1075 <=? 10 ^ (- e)))
  end.

(** ToBoolean *)
Definition truthy (v : jsval) : bool :=
  match v with
  | JUndefined | JNull => false
  | JBool b => b
  | JNumber n => negb (is_zero n)
  | JString u => match u with [] => false | _ :: _ => true end
  | JArray _ | JObject _ => true
  end.

(** [a || b] *)
Definition or_else (a b : jsval) : jsval := if truthy a then a else b.

Definition units_eqb (u v : list N) : bool :=
  if list_eq_dec N.eq_dec u v then true else false.

(** The value of the own property [name]: of members with the same key the
    last one stands. *)
Fixpoint own_property (name : list N) (members : list (list N * jsval))
  : jsval :=
  match members with
  | [] => JUndefined
  | (key, v) :: rest =>
      match own_property name rest with
      | JUndefined => if units_eqb key name then v else JUndefined
      | later => later
      end
  end.

(** *** The JSON grammar (ECMA-404), as [JSON.parse] reads it *)

(** The quotation mark *)
Definition quote : ascii := ascii_of_nat 34.

(** [starts c s]: what follows [c] when [s] starts with it *)
Definition starts (c : ascii) (s : string) : option string :=
  match s with
  | String a rest => if (a =? c)%char then Some rest else None
  | EmptyString => None
  end.

Definition is_json_ws (a : ascii) : bool :=
  (code a =? 9)%N || (code a =? 10)%N || (code a =? 13)%N || (code a =? 32)%N.

Fixpoint skip_ws (s : string) : string :=
  match s with
  | EmptyString => EmptyString
  | String a rest => if is_json_ws a then skip_ws rest else s
  end.

Definition is_digit (a : ascii) : bool := in_range 48 57 a.

Definition hex_value (a : ascii) : option N :=
  if in_range 48 57 a then Some (code a - 48)%N
  else if in_range 97 102 a then Some (code a - 87)%N
  else if in_range 65 70 a then Some (code a - 55)%N
  else None.

Definition hex4 (h1 h2 h3 h4 : ascii) : option N :=
  match hex_value h1, hex_value h2, hex_value h3, hex_value h4 with
  | Some a, Some b, Some c, Some d => Some (((a * 16 + b) * 16 + c) * 16 + d)%N
  | _, _, _, _ => None
  end.

(** The code unit of a one-letter escape: quotation mark, backslash, slash,
    b, f, n, r, t. *)
Definition escape (e : ascii) : option N :=
  if (e =? quote)%char then Some 34%N
  else if (e =? "\")%char then Some 92%N
  else if (e =? "/")%char then Some 47%N
  else if (e =? "b")%char then Some 8%N
  else if (e =? "f")%char then Some 12%N
  else if (e =? "n")%char then Some 10%N
  else if (e =? "r")%char then Some 13%N
  else if (e =? "t")%char then Some 9%N
  else None.

Definition cons_unit (u : N) (r : option (list N * string))
  : option (list N * string) :=
  match r with
  | Some (units, rest) => Some (u :: units, rest)
  | None => None
  end.

(** The characters of a string after its opening quotation mark, up to and
    with the closing one.  A control character must be escaped. *)
Fixpoint string_body (s : string) : option (list N * string) :=
  match s with
  | EmptyString => None
  | String a rest =>
      if (a =? quote)%char then Some ([], rest)
      else if (a =? "\")%char then
        match rest with
        | EmptyString => None
        | String e rest1 =>
            match escape e with
            | Some u => cons_unit u (string_body rest1)
            | None =>
                if (e =? "u")%char then
                  match rest1 with
                  | String h1 (String h2 (String h3 (String h4 rest2))) =>
                      match hex4 h1 h2 h3 h4 with
                      | Some u => cons_unit u (string_body rest2)
                      | None => None
                      end
                  | _ => None
                  end
                else None
            end
        end
      else if (code a <? 32)%N then None
      else cons_unit (code a) (string_body rest)
  end.

(** The digits at the head of [s] read onto [acc], how many there were,
    the rest. *)
Fixpoint read_digits (acc : N) (count : nat) (s : string) : N * nat * string :=
  match s with
  | EmptyString => (acc, count, s)
  | String a rest =>
      if is_digit a then read_digits (acc * 10 + (code a - 48))%N (S count) rest
      else (acc, count, s)
  end.

(** The fraction: nothing, or a point and at least one digit. *)
Definition read_fraction (int : N) (s : string) : option (N * nat * string) :=
  match starts "." s with
  | Some rest =>
      match read_digits int 0 rest with
      | (_, O, _) => None
      | r => Some r
      end
  | None => Some (int, O, s)
  end.

(** An optional sign *)
Definition read_sign (s : string) : bool * string :=
  match starts "-" s with
  | Some rest => (true, rest)
  | None =>
      match starts "+" s with
      | Some rest => (false, rest)
      | None => (false, s)
      end
  end.

(** The exponent: nothing, or e or E, a sign or none, at least one digit. *)
Definition read_exponent (s : string) : option (Z * string) :=
  match s with
  | String c rest =>
      if (c =? "e")%char || (c =? "E")%char then
        let '(negative, rest1) := read_sign rest in
        match read_digits 0 0 rest1 with
        | (_, O, _) => None
        | (e, _, rest2) => Some (if negative then - Z.of_N e else Z.of_N e, rest2)
        end
      else Some (0, s)
  | EmptyString => Some (0, s)
  end.

(** A number: an optional minus sign, then 0 or a digit from 1 to 9 with
    more digits, then a fraction or none, then an exponent or none. *)
Definition read_number (s : string) : option (number * string) :=
  let '(negative, s1) :=
    match starts "-" s with
    | Some rest => (true, rest)
    | None => (false, s)
    end in
  match s1 with
  | String d rest =>
      if is_digit d then
        let '(int, _, rest1) :=
          if (d =? "0")%char then (0%N, 1%nat, rest)
          else read_digits 0 0 s1 in
        match read_fraction int rest1 with
        | None => None
        | Some (mantissa, places, rest2) =>
            match read_exponent rest2 with
            | None => None
            | Some (e, rest3) =>
                Some (Num negative mantissa (e - Z.of_nat places), rest3)
            end
        end
      else None
  | EmptyString => None
  end.

(** The outcome of reading one value. *)
Inductive outcome (A : Type) : Type :=
| Parsed (a : A) (rest : string)
| Bad                              (* the text is no JSON *)
| OutOfFuel.

Arguments Parsed {A} a rest.
Arguments Bad {A}.
Arguments OutOfFuel {A}.

(** [after word v s]: the literal [word] at the head of [s] *)
Definition after (word : string) (v : jsval) (s : string) : outcome jsval :=
  if prefix word s
  then Parsed v (substring (String.length word)
                   (String.length s - String.length word) s)
  else Bad.

(** The values.  [s] starts at the first character of the value; the
    elements of an array and the members of an object are read in turn, and
    [acc] holds those read so far, the last one first. *)
Fixpoint read_value (fuel : nat) (s : string) {struct fuel} : outcome jsval :=
  match fuel with
  | O => OutOfFuel
  | S fuel' =>
      match s with
      | EmptyString => Bad
      | String a rest =>
          if (a =? "{")%char then
            match starts "}" (skip_ws rest) with
            | Some rest1 => Parsed (JObject []) rest1
            | None => read_members fuel' [] (skip_ws rest)
            end
          else if (a =? "[")%char then
            match starts "]" (skip_ws rest) with
            | Some rest1 => Parsed (JArray []) rest1
            | None => read_elements fuel' [] (skip_ws rest)
            end
          else if (a =? quote)%char then
            match string_body rest with
            | Some (units, rest1) => Parsed (JString units) rest1
            | None => Bad
            end
          else if (a =? "t")%char then after "true" (JBool true) s
          else if (a =? "f")%char then after "false" (JBool false) s
          else if (a =? "n")%char then after "null" JNull s
          else
            match read_number s with
            | Some (n, rest1) => Parsed (JNumber n) rest1
            | None => Bad
            end
      end
  end

with read_elements (fuel : nat) (acc : list jsval) (s : string) {struct fuel}
  : outcome jsval :=
  match fuel with
  | O => OutOfFuel
  | S fuel' =>
      match read_value fuel' s with
      | Parsed v rest =>
          match starts "," (skip_ws rest) with
          | Some rest1 => read_elements fuel' (v :: acc) (skip_ws rest1)
          | None =>
              match starts "]" (skip_ws rest) with
              | Some rest1 => Parsed (JArray (rev (v :: acc))) rest1
              | None => Bad
              end
          end
      | Bad => Bad
      | OutOfFuel => OutOfFuel
      end
  end

with read_members (fuel : nat) (acc : list (list N * jsval)) (s : string)
    {struct fuel} : outcome jsval :=
  match fuel with
  | O => OutOfFuel
  | S fuel' =>
      match starts quote s with
      | Some rest =>
          match string_body rest with
          | Some (key, rest1) =>
              match starts ":" (skip_ws rest1) with
              | Some rest2 =>
                  match read_value fuel' (skip_ws rest2) with
                  | Parsed v rest3 =>
                      match starts "," (skip_ws rest3) with
                      | Some rest4 =>
                          read_members fuel' ((key, v) :: acc) (skip_ws rest4)
                      | None =>
                          match starts "}" (skip_ws rest3) with
                          | Some rest4 =>
                              Parsed (JObject (rev ((key, v) :: acc))) rest4
                          | None => Bad
                          end
                      end
                  | Bad => Bad
                  | OutOfFuel => OutOfFuel
                  end
              | None => Bad
              end
          | None => Bad
          end
      | None => Bad
      end
  end.

(** Two calls in a row read at least one character between them, so this
    fuel is never used up (see [read_value_fuel]). *)
Definition enough_fuel (text : string) : nat := 2 * String.length text + 2.

(** [JSON.parse(text)] *)
Definition JSON_parse (text : string) : result jsval :=
  match read_value (enough_fuel text) (skip_ws text) with
  | Parsed v rest =>
      match skip_ws rest with
      | EmptyString => Return v
      | String _ _ => Throw SyntaxError
      end
  | Bad => Throw SyntaxError
  | OutOfFuel => Throw SyntaxError
  end.

(** Reading the property [name] of a value.  [null] and [undefined] have no
    properties: the read throws.  An object gives its own property, or
    [undefined]; so do the other values, for a name that their prototypes
    do not define (the names read here are score, suggestions and
    insights). *)
Definition get (v : jsval) (name : string) : result jsval :=
  match v with
  | JUndefined | JNull => Throw TypeError
  | JObject members => Return (own_property (units_of name) members)
  | JBool _ | JNumber _ | JString _ | JArray _ => Return JUndefined
  end.

(** [Array.isArray(v)] *)
Definition isArray (v : jsval) : bool :=
  match v with
  | JArray _ => true
  | _ => false
  end.

(** ** [src/analyzers/AIAnalyzer.ts] *)

Definition nl : string := String (ascii_of_nat 10) EmptyString.
Definition dq : string := String (ascii_of_nat 34) EmptyString.

(** [text.slice(0, n)] *)
Definition slice0 (n : nat) (text : string) : string := substring 0 n text.

(** The [ai] member of [Config] ([src/types], not among the sources): the
    fields the constructors read.  Only [provider] is always there. *)
Record AIConfig : Type := {
  ai_provider : string;
  ai_apiKey : option string;
  ai_model : option string;
  ai_maxTokens : option Z;
  ai_temperature : option Q
}.

Record AIAnalyzer : Type := { aiProvider : option AIProvider }.

(** [aiConfig?.apiKey], when truthy *)
Definition configured_key (aiConfig : option AIConfig) : option (AIConfig * string) :=
  match aiConfig with
  | Some cfg =>
      match ai_apiKey cfg with
      | Some key => if falsy_string key then None else Some (cfg, key)
      | None => None
      end
  | None => None
  end.

(** [new AIAnalyzer(aiConfig)] *)
Definition new_AIAnalyzer (aiConfig : option AIConfig) : result AIAnalyzer :=
  match configured_key aiConfig with
  | Some (cfg, key) =>
      p <- create {| provider := ai_provider cfg;
                     apiKey := key;
                     model := ai_model cfg;
                     maxTokens := ai_maxTokens cfg;
                     temperature := ai_temperature cfg |} ;;
      Return {| aiProvider := Some p |}
  | None => Return {| aiProvider := None |}
  end.

Definition isAIAvailable (self : AIAnalyzer) : bool :=
  match aiProvider self with
  | Some _ => true
  | None => false
  end.

Record ReadmeAnalysis : Type := { qualityScore : jsval; suggestions : jsval }.

Record CodeQualityAnalysis : Type := { insights : jsval; architectureScore : jsval }.

Record SourceFile : Type := { path : string; file_content : string }.

Definition readme_prompt : string :=
  concat nl
    [ "You are a technical documentation expert. Analyze this README.md and provide:";
      "1. A quality score from 0-100";
      "2. 3-5 specific suggestions for improvement";
      "";
      "Focus on: clarity, completeness, installation instructions, usage examples, and project description.";
      "";
      "Return ONLY a JSON object with this structure:";
      "{";
      "  " ++ dq ++ "score" ++ dq ++ ": <number>,";
      "  " ++ dq ++ "suggestions" ++ dq ++ ": [" ++ dq ++ "suggestion 1" ++ dq
        ++ ", " ++ dq ++ "suggestion 2" ++ dq ++ ", ...]";
      "}" ].

Definition code_quality_prompt : string :=
  concat nl
    [ "You are a senior software architect. Analyze this code snapshot and provide:";
      "1. An architecture quality score from 0-100";
      "2. 3-5 key insights about code quality, patterns, and architecture";
      "";
      "Return ONLY a JSON object:";
      "{";
      "  " ++ dq ++ "score" ++ dq ++ ": <number>,";
      "  " ++ dq ++ "insights" ++ dq ++ ": [" ++ dq ++ "insight 1" ++ dq
        ++ ", " ++ dq ++ "insight 2" ++ dq ++ ", ...]";
      "}" ].

Definition security_prompt : string :=
  concat nl
    [ "You are a security expert. Review this code for potential security issues.";
      "List 3-5 security concerns (or " ++ dq ++ "None found" ++ dq
        ++ " if code looks secure).";
      "";
      "Return ONLY a JSON array of strings:";
      "[" ++ dq ++ "concern 1" ++ dq ++ ", " ++ dq ++ "concern 2" ++ dq ++ ", ...]" ].

Definition roadmap_prompt (contextStr : string) : string :=
  concat nl
    [ "You are a technology modernization consultant. Based on this project context:";
      contextStr;
      "";
      "Provide 3-5 prioritized modernization steps (immediate, short-term, long-term).";
      "";
      "Return ONLY a JSON array of strings:";
      "[" ++ dq ++ "step 1" ++ dq ++ ", " ++ dq ++ "step 2" ++ dq ++ ", ...]" ].

Section Analyzer.

(** What the adapter's [analyze] settles to: it belongs to the provider
    classes and to the vendor behind the network. *)
Variable analyze : AIProvider -> AIAnalysisRequest -> result AIAnalysisResponse.

(** What [Date.now()] reads during the call. *)
Variable now : Z.

(** [JSON.stringify(context, null, 2)] of the caller's context object. *)
Variable stringify : RoadmapContext -> string.

Definition analyzeReadme (self : AIAnalyzer) (readmeContent : string)
  : result ReadmeAnalysis :=
  match aiProvider self with
  | None => Throw (Error "AI provider not configured")
  | Some aiProvider =>
      let prompt := readme_prompt in
      try_catch
        (response <- analyze aiProvider
                       {| content := readmeContent;
                          prompt := prompt;
                          req_maxTokens := Some 1000;
                          req_temperature := Some (5 # 10)%Q |} ;;
         result <- JSON_parse (result_text response) ;;
         score <- get result "score" ;;
         suggestions <- get result "suggestions" ;;
         Return {| qualityScore := or_else score (JNumber (of_Z 50));
                   suggestions := or_else suggestions (JArray []) |})
        (fun _ =>
           Return {| qualityScore :=
                       JNumber (of_Z (calculateBasicReadmeScore readmeContent));
                     suggestions := JArray [] |})
  end.

Definition analyzeCodeQuality (self : AIAnalyzer) (files : list SourceFile)
  : result CodeQualityAnalysis :=
  match aiProvider self with
  | None => Throw (Error "AI provider not configured")
  | Some aiProvider =>
      let codeSnapshot :=
        concat (nl ++ nl ++ "---" ++ nl ++ nl)
          (map (fun f => "// " ++ path f ++ nl ++ slice0 500 (file_content f))
             (firstn 5 files)) in
      let prompt := code_quality_prompt in
      try_catch
        (response <- analyze aiProvider
                       {| content := codeSnapshot;
                          prompt := prompt;
                          req_maxTokens := Some 800;
                          req_temperature := Some (3 # 10)%Q |} ;;
         result <- JSON_parse (result_text response) ;;
         insights <- get result "insights" ;;
         score <- get result "score" ;;
         Return {| insights := or_else insights (JArray []);
                   architectureScore := or_else score (JNumber (of_Z 70)) |})
        (fun _ =>
           Return {| insights := JArray [];
                     architectureScore := JNumber (of_Z 70) |})
  end.

Definition analyzeSecurityConcerns (self : AIAnalyzer) (codeSnippets : list string)
  : result jsval :=
  match aiProvider self with
  | None => Return (JArray [])
  | Some aiProvider =>
      let codeSnapshot :=
        concat (nl ++ nl ++ "---" ++ nl ++ nl) (firstn 3 codeSnippets) in
      let prompt := security_prompt in
      try_catch
        (response <- analyze aiProvider
                       {| content := codeSnapshot;
                          prompt := prompt;
                          req_maxTokens := Some 500;
                          req_temperature := Some (2 # 10)%Q |} ;;
         concerns <- JSON_parse (result_text response) ;;
         Return (if isArray concerns then concerns else JArray []))
        (fun _ => Return (JArray []))
  end.

Definition generateModernizationRoadmap (self : AIAnalyzer)
    (context : RoadmapContext) : result jsval :=
  match aiProvider self with
  | None => Return (of_strings (generateBasicRoadmap now context))
  | Some aiProvider =>
      let contextStr := stringify context in
      let prompt := roadmap_prompt contextStr in
      try_catch
        (response <- analyze aiProvider
                       {| content := contextStr;
                          prompt := prompt;
                          req_maxTokens := Some 600;
                          req_temperature := Some (6 # 10)%Q |} ;;
         roadmap <- JSON_parse (result_text response) ;;
         Return (if isArray roadmap then roadmap
                 else of_strings (generateBasicRoadmap now context)))
        (fun _ => Return (of_strings (generateBasicRoadmap now context)))
  end.

(** ** The README score of [src/analyzers/DocumentationAnalyzer.ts] *)

Record DocumentationAnalyzer : Type := { aiAnalyzer : option AIAnalyzer }.

(** [new DocumentationAnalyzer(githubClient, aiConfig)], the analyzer part *)
Definition new_DocumentationAnalyzer (aiConfig : option AIConfig)
  : result DocumentationAnalyzer :=
  match configured_key aiConfig with
  | Some _ =>
      a <- new_AIAnalyzer aiConfig ;;
      Return {| aiAnalyzer := Some a |}
  | None => Return {| aiAnalyzer := None |}
  end.

(** [readmeContent && this.aiAnalyzer?.isAIAvailable()], when truthy *)
Definition usable_ai (self : DocumentationAnalyzer) (readmeContent : option string)
  : option (AIAnalyzer * string) :=
  match readmeContent, aiAnalyzer self with
  | Some text, Some a =>
      if negb (falsy_string text) && isAIAvailable a then Some (a, text) else None
  | _, _ => None
  end.

(** The [readmeQuality] that [DocumentationAnalyzer.analyze] computes from
    the README it fetched ([None] when there is none). *)
Definition readmeQuality (self : DocumentationAnalyzer)
    (readmeContent : option string) : result jsval :=
  match usable_ai self readmeContent with
  | Some (a, text) =>
      try_catch
        (aiResult <- analyzeReadme a text ;;
         Return (qualityScore aiResult))
        (fun _ => Return (JNumber (of_Z (calculateReadmeQuality readmeContent))))
  | None => Return (JNumber (of_Z (calculateReadmeQuality readmeContent)))
  end.

End Analyzer.

(** ** Notions of the specification *)

(** What a regular expression matches: [matches fl r prev s prev' s'] when
    [r] matches a prefix of [s] and leaves [s'], [prev] being the code unit
    before [s] and [prev'] the one before [s']. *)
Inductive matches (fl : flags)
  : regex -> option ascii -> string -> option ascii -> string -> Prop :=
| M_Empty prev s :
    matches fl Empty prev s prev s
| M_Chr cs prev a s :
    unit_in fl cs a = true ->
    matches fl (Chr cs) prev (String a s) (Some a) s
| M_Seq r1 r2 prev s prev1 s1 prev2 s2 :
    matches fl r1 prev s prev1 s1 ->
    matches fl r2 prev1 s1 prev2 s2 ->
    matches fl (Seq r1 r2) prev s prev2 s2
| M_Alt_left r1 r2 prev s prev' s' :
    matches fl r1 prev s prev' s' ->
    matches fl (Alt r1 r2) prev s prev' s'
| M_Alt_right r1 r2 prev s prev' s' :
    matches fl r2 prev s prev' s' ->
    matches fl (Alt r1 r2) prev s prev' s'
| M_Star_stop greedy r prev s :
    matches fl (Star greedy r) prev s prev s
| M_Star_more greedy r prev s prev1 s1 prev2 s2 :
    matches fl r prev s prev1 s1 ->
    (String.length s1 < String.length s)%nat ->
    matches fl (Star greedy r) prev1 s1 prev2 s2 ->
    matches fl (Star greedy r) prev s prev2 s2
| M_Bol prev s :
    at_line_start fl prev = true ->
    matches fl Bol prev s prev s.

(** The code unit before the end of [before], which itself comes after
    [prev]. *)
Fixpoint last_unit (prev : option ascii) (before : string) : option ascii :=
  match before with
  | EmptyString => prev
  | String a rest => last_unit (Some a) rest
  end.

(** [m] spells the pattern characters of [word], under the flags. *)
Fixpoint spells (fl : flags) (word m : string) : bool :=
  match word, m with
  | EmptyString, EmptyString => true
  | String c word', String a m' =>
      if unit_in fl (Lit c) a then spells fl word' m' else false
  | _, _ => false
  end.

(** [r] matches the whole of [m], which comes after [prev]. *)
Definition accepts (fl : flags) (r : regex) (prev : option ascii) (m : string)
  : Prop :=
  matches fl r prev m (last_unit prev m) "".

(** Every code unit of [s] satisfies [ok]. *)
Fixpoint all_units (ok : ascii -> bool) (s : string) : bool :=
  match s with
  | EmptyString => true
  | String a rest => if ok a then all_units ok rest else false
  end.

(** A non-empty run of white space. *)
Definition blanks (gap : string) : Prop :=
  gap <> "" /\ all_units is_space gap = true.

(** A text with no line terminator in it. *)
Definition one_line (text : string) : Prop :=
  all_units (fun a => negb (is_line_terminator a)) text = true.

(** A top-level heading: at the start of a line a number sign, white space,
    and some text on one line. *)
Definition has_top_level_heading (s : string) : Prop :=
  exists before gap text rest,
    s = before ++ "#" ++ gap ++ text ++ rest /\
    at_line_start flag_m (last_unit None before) = true /\
    blanks gap /\ text <> "" /\ one_line text.

(** A section heading, two number signs and white space, whose title starts
    with one of [titles], in any letter case. *)
Definition has_section (titles : list string) (s : string) : Prop :=
  exists before gap title rest,
    s = before ++ "##" ++ gap ++ title ++ rest /\
    blanks gap /\ In (toLowerCase title) titles.

(** The same for the title made of the words quick and start. *)
Definition has_quick_start_section (s : string) : Prop :=
  exists before gap quick gap' start rest,
    s = before ++ "##" ++ gap ++ quick ++ gap' ++ start ++ rest /\
    blanks gap /\ toLowerCase quick = "quick" /\
    blanks gap' /\ toLowerCase start = "start".

(** A fenced code block: two fences of three grave accents. *)
Definition has_code_block (s : string) : Prop :=
  exists before inside rest,
    s = before ++ "```" ++ inside ++ "```" ++ rest.

(** A hyperlink: a text in brackets and a target in parentheses, each not
    empty and on one line. *)
Definition has_link (s : string) : Prop :=
  exists before text target rest,
    s = before ++ "[" ++ text ++ "](" ++ target ++ ")" ++ rest /\
    text <> "" /\ one_line text /\ target <> "" /\ one_line target.

(** A badge image: an exclamation mark, then a text in brackets and a target
    in parentheses, each on one line; either may be empty. *)
Definition has_badge (s : string) : Prop :=
  exists before text target rest,
    s = before ++ "![" ++ text ++ "](" ++ target ++ ")" ++ rest /\
    one_line text /\ one_line target.

(** The word occurs in the text, in any letter case. *)
Definition mentions (word : string) (s : string) : Prop :=
  exists before w rest, s = before ++ w ++ rest /\ toLowerCase w = word.

(** All code units below 256. *)
Definition all_ascii : list ascii := map ascii_of_nat (seq 0 256).

(** [a] is the letter [b], small as it stands or as a capital. *)
Definition same_letter (a b : ascii) : Prop :=
  a = b \/ (in_range 97 122 b = true /\ code a = (code b - 32)%N).

(** [s] spells [name] in some letter case. *)
Fixpoint in_any_case (s name : string) : Prop :=
  match s, name with
  | EmptyString, EmptyString => True
  | String a s', String b name' => same_letter a b /\ in_any_case s' name'
  | _, _ => False
  end.

(** All of [name] is small letters a-z. *)
Fixpoint small_letters (name : string) : bool :=
  match name with
  | EmptyString => true
  | String b rest => in_range 97 122 b && small_letters rest
  end.

(** What the reader promises of an outcome on [s]: it is not out of fuel,
    and a value read is a value of JSON and took at least one character. *)
Definition shorter (s : string) (o : outcome jsval) : Prop :=
  o <> OutOfFuel /\
  forall v rest, o = Parsed v rest ->
                 v <> JUndefined /\ (String.length rest < String.length s)%nat.

(** The points of the conditions that hold. *)
Fixpoint points (table : list (bool * Z)) : Z :=
  match table with
  | [] => 0
  | (holds, value) :: rest => (if holds then value else 0) + points rest
  end.

(** The conditions that the specification lists for the README fallback
    score: the two length thresholds, a top-level heading, an installation
    or setup section, a usage or example section, a fenced code block, a
    hyperlink, a badge image. *)
Definition listed_conditions (content : string) : list bool :=
  [ len content >=? 500;
    len content >=? 200;
    test flag_m re_title content;
    test flag_i re_installation_section content;
    test flag_i re_usage_section content;
    test no_flags re_code_block content;
    test no_flags re_link content;
    test no_flags re_badge content ].

(** The request of [analyzeReadme]. *)
Definition readme_request (readmeContent : string) : AIAnalysisRequest :=
  {| content := readmeContent;
     prompt := readme_prompt;
     req_maxTokens := Some 1000;
     req_temperature := Some (5 # 10)%Q |}.

(** [analyzeReadme] falls back: the call fails, or its answer is no JSON,
    or it is the JSON text null, whose properties cannot be read. *)
Definition falls_back
    (analyze : AIProvider -> AIAnalysisRequest -> result AIAnalysisResponse)
    (p : AIProvider) (text : string) : Prop :=
  (exists e, analyze p (readme_request text) = Throw e) \/
  (exists response e,
      analyze p (readme_request text) = Return response /\
      JSON_parse (result_text response) = Throw e) \/
  (exists response,
      analyze p (readme_request text) = Return response /\
      JSON_parse (result_text response) = Return JNull).

(** ** Adapters and inputs for the examples *)

(** An adapter behind which every call fails. *)
Definition failing_vendor (_ : AIProvider) (_ : AIAnalysisRequest)
  : result AIAnalysisResponse :=
  Throw (Error "Network error").

(** An adapter whose vendor always answers [text]. *)
Definition answering (text : string) (p : AIProvider) (_ : AIAnalysisRequest)
  : result AIAnalysisResponse :=
  Return {| result_text := text;
            tokensUsed := None;
            resp_model := None;
            resp_provider := getProviderName p |}.

Definition plain_stringify (_ : RoadmapContext) : string := "{}".

Definition openai_adapter : AIProvider :=
  new_provider OpenAIProvider "test-key" None.

Definition with_ai : DocumentationAnalyzer :=
  {| aiAnalyzer := Some {| aiProvider := Some openai_adapter |} |}.

Definition tested_project (t : Z) : RoadmapContext :=
  {| technologies := ["typescript"]; lastUpdate := Some t;
     hasTests := true; hasCICD := true |}.

Definition test_config (name key : string) : AIProviderConfig :=
  {| provider := name; apiKey := key; model := None;
     maxTokens := None; temperature := None |}.

(** [/immediate.*test/i], the pattern of the last roadmap test *)
Definition re_immediate_test : regex :=
  Seq (Str "immediate") (Seq (Star true (Chr Dot)) (Str "test")).

Definition days (n : Z) : Z := n * 24 * 60 * 60 * 1000.


(** ** [AIProviderFactory.createFromEnv] *)

(** [value || fallback], for a variable of the environment *)
Definition or_default (value : option string) (fallback : string) : string :=
  match value with
  | Some s => if falsy_string s then fallback else s
  | None => fallback
  end.

(** The value, when it is truthy: set and not empty. *)
Definition when_truthy (value : option string) : option string :=
  match value with
  | Some s => if falsy_string s then None else Some s
  | None => None
  end.

Section Environment.

(** [process.env]: the value of a variable, [None] when it is not set. *)
Variable env : string -> option string.

(** [parseInt] and [parseFloat], on the text of a numeric override.  [None]
    stands for [NaN] here: the factory hands the two numbers on and never
    reads them. *)
Variable parseInt : string -> option Z.
Variable parseFloat : string -> option Q.

Definition createFromEnv : result AIProvider :=
  let provider := toLowerCase (or_default (env "AI_PROVIDER") "openai") in
  apiKey <-
    (if (provider =? "openai")%string then Return (env "OPENAI_API_KEY")
     else if (provider =? "anthropic")%string then Return (env "ANTHROPIC_API_KEY")
     else if (provider =? "gemini")%string then Return (env "GEMINI_API_KEY")
     else Throw (Error ("Unknown AI provider: " ++ provider))) ;;
  match when_truthy apiKey with
  | None => Throw (Error ("API key not found for " ++ provider ++ " provider"))
  | Some apiKey =>
      create {| provider := provider;
                apiKey := apiKey;
                model := env "AI_MODEL";
                maxTokens :=
                  match when_truthy (env "AI_MAX_TOKENS") with
                  | Some text => parseInt text
                  | None => None
                  end;
                temperature :=
                  match when_truthy (env "AI_TEMPERATURE") with
                  | Some text => parseFloat text
                  | None => None
                  end |}
  end.

End Environment.

(** The variable that holds the key of a provider. *)
Definition key_variable (class : provider_class) : string :=
  match class with
  | OpenAIProvider => "OPENAI_API_KEY"
  | AnthropicProvider => "ANTHROPIC_API_KEY"
  | GeminiProvider => "GEMINI_API_KEY"
  end.

(** The name that selects a provider. *)
Definition provider_name (class : provider_class) : string :=
  match class with
  | OpenAIProvider => "openai"
  | AnthropicProvider => "anthropic"
  | GeminiProvider => "gemini"
  end.

(** ** The type guards of the vendor responses ([src/ai/types]) *)

(** [typeof v === 'object'] *)
Definition typeof_object (v : jsval) : bool :=
  match v with
  | JNull | JArray _ | JObject _ => true
  | JUndefined | JBool _ | JNumber _ | JString _ => false
  end.

(** [v !== null] *)
Definition not_null (v : jsval) : bool :=
  match v with
  | JNull => false
  | _ => true
  end.

(** [name in v].  An object has the property when one of its members has
    the key; an array has not, for a name that is no index and that its
    prototype does not define (the names tested are error and code); any
    other right operand makes [in] throw. *)
Definition has_property (name : string) (v : jsval) : result bool :=
  match v with
  | JObject members =>
      Return (existsb (fun member => units_eqb (fst member) (units_of name)) members)
  | JArray _ => Return false
  | JUndefined | JNull | JBool _ | JNumber _ | JString _ => Throw TypeError
  end.

(** [a && b] of two tests: [b] is evaluated only when [a] holds. *)
Definition and_then (a b : result bool) : result bool :=
  holds <- a ;; if holds then b else Return false.

Definition isOpenAIError (data : jsval) : result bool :=
  and_then (Return (typeof_object data))
    (and_then (Return (not_null data))
       (and_then (has_property "error" data)
          (error <- get data "error" ;; Return (typeof_object error)))).

Definition isAnthropicError (data : jsval) : result bool :=
  and_then (Return (typeof_object data))
    (and_then (Return (not_null data))
       (and_then (has_property "error" data)
          (error <- get data "error" ;; Return (typeof_object error)))).

Definition isGeminiError (data : jsval) : result bool :=
  and_then (Return (typeof_object data))
    (and_then (Return (not_null data))
       (and_then (has_property "error" data)
          (and_then (error <- get data "error" ;; Return (typeof_object error))
             (error <- get data "error" ;; has_property "code" error)))).

(** ** [DocumentationAnalyzer.analyze] and its file checks *)

(** The metrics that [analyze] returns. *)
Record DocumentationMetrics : Type := {
  metric_hasReadme : bool;
  metric_readmeQuality : jsval;
  metric_hasContributing : bool;
  metric_hasLicense : bool;
  metric_hasChangelog : bool;
  metric_apiDocumentation : bool
}.

Section Documentation.

Variable analyze : AIProvider -> AIAnalysisRequest -> result AIAnalysisResponse.

(** [githubClient.hasFile(owner, repo, path)] and
    [githubClient.getFileContent(owner, repo, path)] ([src/utils], not
    among the sources): what the calls settle to. *)
Variable hasFile : string -> string -> string -> result bool.
Variable getFileContent : string -> string -> string -> result (option string).

(** The loop of the three checks: the paths in turn, until one is there. *)
Fixpoint any_file (owner repo : string) (paths : list string) : result bool :=
  match paths with
  | [] => Return false
  | path :: rest =>
      found <- hasFile owner repo path ;;
      if found then Return true else any_file owner repo rest
  end.

Definition hasLicense (owner repo : string) : result bool :=
  let licensePaths := ["LICENSE"; "LICENSE.md"; "LICENSE.txt"; "COPYING"] in
  any_file owner repo licensePaths.

Definition hasChangelog (owner repo : string) : result bool :=
  let changelogPaths := ["CHANGELOG.md"; "CHANGELOG"; "HISTORY.md"; "RELEASES.md"] in
  any_file owner repo changelogPaths.

Definition hasApiDocs (owner repo : string) : result bool :=
  let docPaths := ["docs/"; "documentation/"; "API.md"; "docs/api/"] in
  any_file owner repo docPaths.

(** [DocumentationAnalyzer.analyze] *)
Definition DocumentationAnalyzer_analyze (self : DocumentationAnalyzer)
    (owner repo : string) : result DocumentationMetrics :=
  hasReadme <- hasFile owner repo "README.md" ;;
  readmeContent <- getFileContent owner repo "README.md" ;;
  readmeQuality <- readmeQuality analyze self readmeContent ;;
  hasContributing <- hasFile owner repo "CONTRIBUTING.md" ;;
  hasLicense <- hasLicense owner repo ;;
  hasChangelog <- hasChangelog owner repo ;;
  apiDocumentation <- hasApiDocs owner repo ;;
  Return {| metric_hasReadme := hasReadme;
            metric_readmeQuality := readmeQuality;
            metric_hasContributing := hasContributing;
            metric_hasLicense := hasLicense;
            metric_hasChangelog := hasChangelog;
            metric_apiDocumentation := apiDocumentation |}.

End Documentation.

(** ** Further notions *)

(** The first of the paths that is there comes after paths that are not:
    the check stops at it. *)
Definition first_hit (hasFile : string -> string -> string -> result bool)
    (owner repo : string) (paths : list string) : Prop :=
  exists before path after,
    paths = (before ++ path :: after)%list /\
    Forall (fun p => hasFile owner repo p = Return false) before /\
    hasFile owner repo path = Return true.

(** The first of the paths whose check fails, with [e], comes after paths
    that are not there. *)
Definition first_failure (hasFile : string -> string -> string -> result bool)
    (owner repo : string) (paths : list string) (e : exn) : Prop :=
  exists before path after,
    paths = (before ++ path :: after)%list /\
    Forall (fun p => hasFile owner repo p = Return false) before /\
    hasFile owner repo path = Throw e.

(** One file as [analyzeCodeQuality] shows it to the adapter. *)
Definition truncated (f : SourceFile) : SourceFile :=
  {| path := path f; file_content := slice0 500 (file_content f) |}.

(** The request of [analyzeCodeQuality] for a code snapshot. *)
Definition code_quality_request (codeSnapshot : string) : AIAnalysisRequest :=
  {| content := codeSnapshot;
     prompt := code_quality_prompt;
     req_maxTokens := Some 800;
     req_temperature := Some (3 # 10)%Q |}.

(** A GitHub client for the examples: the files of a small repository. *)
Definition sample_hasFile (_ _ : string) (path : string) : result bool :=
  Return ((path =? "README.md")%string || (path =? "LICENSE.md")%string).

Definition sample_getFileContent (_ _ : string) (path : string)
  : result (option string) :=
  Return (if (path =? "README.md")%string then Some "# Sample" else None).

(** An environment for the examples. *)
Definition sample_env (name : string) : option string :=
  if (name =? "AI_PROVIDER")%string then Some "Anthropic"
  else if (name =? "ANTHROPIC_API_KEY")%string then Some "test-anthropic-key"
  else None.

Definition no_number (A : Type) (_ : string) : option A := None.

(** How a check of files over [paths] settles: [true] at the first path
    that is there, [false] when none is, and the failure of the first check
    that fails. *)
Definition stops_at_first (hasFile : string -> string -> string -> result bool)
    (owner repo : string) (paths : list string) (outcome : result bool) : Prop :=
  (outcome = Return true <-> first_hit hasFile owner repo paths) /\
  (outcome = Return false <->
   Forall (fun p => hasFile owner repo p = Return false) paths) /\
  (forall e, outcome = Throw e <-> first_failure hasFile owner repo paths e).

(** The lower-case form of the code unit before the current index. *)
Definition lower_prev (prev : option ascii) : option ascii :=
  option_map lower_unit prev.

(** Two tables of points with the same values, each condition of the first
    implying the one of the second. *)
Definition grows (table1 table2 : list (bool * Z)) : Prop :=
  Forall2 (fun entry1 entry2 =>
             snd entry1 = snd entry2 /\ 0 <= snd entry1 /\
             (fst entry1 = true -> fst entry2 = true))
    table1 table2.

(** Two continuations that agree up to letter case. *)
Definition same_up_to_case (k k' : option ascii -> string -> bool) : Prop :=
  forall prev s, k prev s = k' (lower_prev prev) (toLowerCase s).

(** The code snapshot of [analyzeCodeQuality]. *)
Definition code_snapshot (files : list SourceFile) : string :=
  concat (nl ++ nl ++ "---" ++ nl ++ nl)
    (map (fun f => "// " ++ path f ++ nl ++ slice0 500 (file_content f))
       (firstn 5 files)).

(** A configuration with a key, for the examples. *)
Definition keyed_config (name : string) : AIConfig :=
  {| ai_provider := name;
     ai_apiKey := Some "test-key";
     ai_model := Some "gpt-4";
     ai_maxTokens := Some 1000;
     ai_temperature := None |}.
(** * Properties *)

(** Case analysis on the comparisons of code units. *)
Ltac split_tests :=
  repeat match goal with
    | H : context [(?x <=? ?y)%N] |- _ => destruct (N.leb_spec x y)
    | |- context [(?x <=? ?y)%N] => destruct (N.leb_spec x y)
    | H : context [(?x =? ?y)%N] |- _ => destruct (N.eqb_spec x y)
    | |- context [(?x =? ?y)%N] => destruct (N.eqb_spec x y)
    end; simpl in *.

(** ** Code units *)

Lemma code_inj (a b : ascii) : code a = code b -> a = b.
Proof.
  unfold code. intros H.
  rewrite <- (ascii_N_embedding a), <- (ascii_N_embedding b).
  now rewrite H.
Qed.

Lemma code_bound (a : ascii) : (code a < 256)%N.
Proof. apply N_ascii_bounded. Qed.

Lemma code_lower_unit (a : ascii) :
  code (lower_unit a) =
  if in_range 65 90 a || (in_range 192 222 a && negb (code a =? 215)%N)
  then (code a + 32)%N else code a.
Proof.
  unfold lower_unit.
  destruct (in_range 65 90 a || (in_range 192 222 a && negb (code a =? 215)%N))
    eqn:E; [|reflexivity].
  unfold code at 1. apply N_ascii_embedding.
  unfold in_range in E. pose proof (code_bound a).
  split_tests; try discriminate; lia.
Qed.

Lemma lower_unit_small (a b : ascii) :
  in_range 97 122 b = true -> (lower_unit a = b <-> same_letter a b).
Proof.
  intros Hb. unfold same_letter. rewrite Hb.
  pose proof (code_lower_unit a) as L.
  pose proof (code_bound a). pose proof (code_bound b).
  unfold in_range in *.
  split.
  - intros E. rewrite E in L.
    split_tests; try discriminate;
      (left; apply code_inj; lia) || (right; split; [reflexivity|lia]).
  - intros [-> | [_ E]]; apply code_inj; rewrite code_lower_unit;
      unfold in_range; split_tests; try discriminate; lia.
Qed.

(** Lowering a string gives [name], all small letters, exactly when the
    string spells [name] in some letter case. *)
Lemma toLowerCase_small (name s : string) :
  small_letters name = true ->
  (toLowerCase s = name <-> in_any_case s name).
Proof.
  revert s. induction name as [|b name IH]; intros [|a s] Hn; simpl in *;
    try (split; [discriminate | contradiction]).
  - split; trivial.
  - apply andb_true_iff in Hn. destruct Hn as [Hb Hn].
    rewrite <- (lower_unit_small a b Hb), <- (IH s Hn).
    split.
    + intros E. injection E. auto.
    + intros [-> ->]. reflexivity.
Qed.

(** ** The factory *)

Lemma falsy_string_empty (s : string) : falsy_string s = true <-> s = "".
Proof. destruct s; simpl; split; congruence. Qed.

Lemma falsy_string_nonempty (s : string) : falsy_string s = false <-> s <> "".
Proof. destruct s; simpl; split; congruence. Qed.

(** C7: with an empty key [create] throws, whatever the provider: the
    message starts with the words about the key. *)
Theorem create_requires_api_key (config : AIProviderConfig) :
  apiKey config = "" ->
  exists msg,
    create config = Throw (Error msg) /\
    includes msg "API key is required" = true /\
    msg = "API key is required for " ++ provider config ++ " provider".
Proof.
  intros H. unfold create. rewrite H. simpl.
  eexists. split; [reflexivity|]. split; reflexivity.
Qed.

Lemma create_requires_api_key_witness :
  exists msg,
    create {| provider := "unknown"; apiKey := ""; model := None;
              maxTokens := None; temperature := None |} = Throw (Error msg) /\
    includes msg "API key is required" = true /\
    msg = "API key is required for unknown provider".
Proof.
  apply (create_requires_api_key
           {| provider := "unknown"; apiKey := ""; model := None;
              maxTokens := None; temperature := None |}).
  reflexivity.
Defined.

(** What [create] does once the key is there. *)
Lemma create_with_key (config : AIProviderConfig) :
  apiKey config <> "" ->
  create config =
    let name := toLowerCase (provider config) in
    if (name =? "openai")%string then
      Return (new_provider OpenAIProvider (apiKey config) (model config))
    else if (name =? "anthropic")%string then
      Return (new_provider AnthropicProvider (apiKey config) (model config))
    else if (name =? "gemini")%string then
      Return (new_provider GeminiProvider (apiKey config) (model config))
    else
      Throw (Error ("Unknown AI provider: " ++ provider config
                    ++ ". Supported providers: openai, anthropic, gemini")).
Proof.
  intros H. unfold create.
  apply falsy_string_nonempty in H. rewrite H. reflexivity.
Qed.

(** C8: with a key, a supported name in any letter case gives the adapter of
    that name, holding the key and the model of the configuration, and any
    other provider value gives the error that quotes it. *)
Theorem create_dispatch (config : AIProviderConfig) :
  apiKey config <> "" ->
  (in_any_case (provider config) "openai" ->
     exists p, create config = Return p /\
       p = new_provider OpenAIProvider (apiKey config) (model config) /\
       getProviderName p = "OpenAI") /\
  (in_any_case (provider config) "anthropic" ->
     exists p, create config = Return p /\
       p = new_provider AnthropicProvider (apiKey config) (model config) /\
       getProviderName p = "Anthropic") /\
  (in_any_case (provider config) "gemini" ->
     exists p, create config = Return p /\
       p = new_provider GeminiProvider (apiKey config) (model config) /\
       getProviderName p = "Google Gemini") /\
  (~ in_any_case (provider config) "openai" ->
   ~ in_any_case (provider config) "anthropic" ->
   ~ in_any_case (provider config) "gemini" ->
     create config =
       Throw (Error ("Unknown AI provider: " ++ provider config
                     ++ ". Supported providers: openai, anthropic, gemini"))).
Proof.
  intros Hkey. rewrite (create_with_key config Hkey). cbv zeta.
  pose proof (toLowerCase_small "openai" (provider config) eq_refl) as Ho.
  pose proof (toLowerCase_small "anthropic" (provider config) eq_refl) as Ha.
  pose proof (toLowerCase_small "gemini" (provider config) eq_refl) as Hg.
  repeat split.
  - intros H. apply Ho in H. rewrite H. simpl. eauto.
  - intros H. apply Ha in H. rewrite H. simpl. eauto.
  - intros H. apply Hg in H. rewrite H. simpl. eauto.
  - intros No Na Ng.
    destruct (String.eqb_spec (toLowerCase (provider config)) "openai") as [E|_];
      [apply Ho in E; contradiction|].
    destruct (String.eqb_spec (toLowerCase (provider config)) "anthropic") as [E|_];
      [apply Ha in E; contradiction|].
    destruct (String.eqb_spec (toLowerCase (provider config)) "gemini") as [E|_];
      [apply Hg in E; contradiction|].
    reflexivity.
Qed.

Lemma create_dispatch_witness :
  exists p,
    create {| provider := "OpenAI"; apiKey := "test-key"; model := None;
              maxTokens := None; temperature := None |} = Return p /\
    p = new_provider OpenAIProvider "test-key" None /\
    getProviderName p = "OpenAI".
Proof.
  apply (create_dispatch
           {| provider := "OpenAI"; apiKey := "test-key"; model := None;
              maxTokens := None; temperature := None |}).
  - discriminate.
  - simpl. unfold same_letter. vm_compute. intuition.
Defined.

(** C9: [validateProvider] always returns: [false] when [create] throws or
    when the adapter's [validateCredentials] throws, and otherwise what
    [validateCredentials] returned. *)
Theorem validateProvider_never_raises
    (validateCredentials : AIProvider -> result bool)
    (config : AIProviderConfig) :
  exists b,
    validateProvider validateCredentials config = Return b /\
    b = match create config with
        | Throw _ => false
        | Return p =>
            match validateCredentials p with
            | Return valid => valid
            | Throw _ => false
            end
        end.
Proof.
  unfold validateProvider.
  destruct (create config) as [p|e]; simpl.
  - destruct (validateCredentials p) as [valid|e]; simpl; eauto.
  - eauto.
Qed.

(** C6: [validateCredentials] of any adapter always returns, and returns
    [true] exactly when the probe came back with success: not when the
    response is not a success, and not when the request was rejected. *)
Theorem validateCredentials_never_raises
    (fetch : AIProvider -> fetch_outcome) (p : AIProvider) :
  exists b,
    probe_validateCredentials fetch p = Return b /\
    (b = true <-> fetch p = Resolved true) /\
    (fetch p = Resolved false -> b = false) /\
    (forall e, fetch p = Rejected e -> b = false).
Proof.
  unfold probe_validateCredentials.
  destruct (fetch p) as [[|]|e]; simpl; eexists; (split; [reflexivity|]);
    repeat split; congruence.
Qed.

(** ** The heuristic roadmap *)

Lemma exceeds_181_days (now : Z) (context : RoadmapContext) :
  exceeds (daysSinceUpdate now context) 180 = true <->
  exists t, lastUpdate context = Some t /\ now - t >= 181 * (1000 * 60 * 60 * 24).
Proof.
  unfold exceeds, daysSinceUpdate.
  destruct (lastUpdate context) as [t|].
  - rewrite Z.gtb_lt. split.
    + intros H. exists t. split; [reflexivity|].
      change (1000 * 60 * 60 * 24) with 86400000 in *.
      Z.div_mod_to_equations. lia.
    + intros (t' & E & H). injection E as <-.
      change (1000 * 60 * 60 * 24) with 86400000 in *.
      Z.div_mod_to_equations. lia.
  - split; [discriminate|]. intros (t & E & _). discriminate.
Qed.

(** The roadmap in closed form. *)
Lemma generateBasicRoadmap_eq (now : Z) (context : RoadmapContext) :
  generateBasicRoadmap now context =
    ((if hasTests context then []
      else ["Immediate: Add automated testing (Jest/Mocha)"])
     ++ (if hasCICD context then []
         else ["Immediate: Set up CI/CD with GitHub Actions"])
     ++ (if exceeds (daysSinceUpdate now context) 180
         then ["Short-term: Update dependencies to latest versions"]
         else [])
     ++ ["Long-term: Implement comprehensive documentation";
         "Long-term: Increase test coverage to 80%+"])%list.
Proof.
  unfold generateBasicRoadmap, push.
  destruct (hasTests context), (hasCICD context),
    (exceeds (daysSinceUpdate now context) 180); reflexivity.
Qed.

(** C4: the items of the heuristic roadmap, in order: the testing item
    exactly when there are no tests, the CI/CD item exactly when there is no
    CI/CD, the dependency item exactly when the whole days since the last
    update exceed 180 (which is when at least 181 days of milliseconds have
    passed), and then, always, the two long-term items. *)
Theorem basic_roadmap_items (now : Z) (context : RoadmapContext) :
  let roadmap := generateBasicRoadmap now context in
  let testing := "Immediate: Add automated testing (Jest/Mocha)" in
  let cicd := "Immediate: Set up CI/CD with GitHub Actions" in
  let dependencies := "Short-term: Update dependencies to latest versions" in
  let documentation := "Long-term: Implement comprehensive documentation" in
  let coverage := "Long-term: Increase test coverage to 80%+" in
  roadmap =
    ((if hasTests context then [] else [testing])
     ++ (if hasCICD context then [] else [cicd])
     ++ (if exceeds (daysSinceUpdate now context) 180 then [dependencies] else [])
     ++ [documentation; coverage])%list
  /\ (In testing roadmap <-> hasTests context = false)
  /\ (In cicd roadmap <-> hasCICD context = false)
  /\ (In dependencies roadmap <->
      exists t, lastUpdate context = Some t
                /\ now - t >= 181 * (1000 * 60 * 60 * 24))
  /\ In documentation roadmap /\ In coverage roadmap
  /\ (2 <= List.length roadmap)%nat.
Proof.
  cbv zeta. rewrite <- exceeds_181_days, generateBasicRoadmap_eq.
  destruct (hasTests context), (hasCICD context),
    (exceeds (daysSinceUpdate now context) 180); simpl;
    (split; [reflexivity|]);
    repeat split; intros; try lia; try congruence; auto 8;
    repeat match goal with
      | H : _ \/ _ |- _ => destruct H
      | H : False |- _ => destruct H
      | H : _ = _ |- _ => discriminate H
      end.
Qed.

(** ** The analyzer without an adapter *)

Section Unconfigured.

Variable analyze : AIProvider -> AIAnalysisRequest -> result AIAnalysisResponse.
Variable now : Z.
Variable stringify : RoadmapContext -> string.

Lemma new_AIAnalyzer_no_key (aiConfig : option AIConfig) :
  configured_key aiConfig = None ->
  new_AIAnalyzer aiConfig = Return {| aiProvider := None |}.
Proof. unfold new_AIAnalyzer. intros ->. reflexivity. Qed.

Lemma generateBasicRoadmap_not_empty (context : RoadmapContext) :
  generateBasicRoadmap now context <> [].
Proof.
  rewrite generateBasicRoadmap_eq.
  destruct (hasTests context), (hasCICD context),
    (exceeds (daysSinceUpdate now context) 180); discriminate.
Qed.

(** C3: an analyzer constructed without a key has no adapter: it is not
    available, README analysis throws the configuration error, and the
    roadmap operation returns the heuristic roadmap, which is not empty and
    is fixed by the context and the clock, whatever the adapters do. *)
Theorem unconfigured_analyzer (aiConfig : option AIConfig) :
  configured_key aiConfig = None ->
  exists self,
    new_AIAnalyzer aiConfig = Return self /\
    isAIAvailable self = false /\
    (forall readmeContent, exists msg,
        analyzeReadme analyze self readmeContent = Throw (Error msg) /\
        includes msg "AI provider not configured" = true) /\
    (forall context, exists items,
        generateModernizationRoadmap analyze now stringify self context
          = Return (of_strings items) /\
        items <> [] /\
        items = generateBasicRoadmap now context).
Proof.
  intros H. exists {| aiProvider := None |}.
  split; [apply new_AIAnalyzer_no_key, H|].
  split; [reflexivity|]. split.
  - intros readmeContent. eexists. split; reflexivity.
  - intros context. eexists. split; [reflexivity|].
    split; [apply generateBasicRoadmap_not_empty | reflexivity].
Qed.

(** C1, as amended: without an adapter README analysis and code-quality
    analysis both throw the configuration error; the security scan returns
    the empty list and the roadmap operation the heuristic roadmap. *)
Theorem unconfigured_operations (self : AIAnalyzer) :
  aiProvider self = None ->
  (forall readmeContent,
      analyzeReadme analyze self readmeContent
        = Throw (Error "AI provider not configured")) /\
  (forall files,
      analyzeCodeQuality analyze self files
        = Throw (Error "AI provider not configured")) /\
  (forall codeSnippets,
      analyzeSecurityConcerns analyze self codeSnippets = Return (JArray [])) /\
  (forall context,
      generateModernizationRoadmap analyze now stringify self context
        = Return (of_strings (generateBasicRoadmap now context))).
Proof.
  intros H.
  unfold analyzeReadme, analyzeCodeQuality, analyzeSecurityConcerns,
    generateModernizationRoadmap.
  rewrite H. repeat split.
Qed.

End Unconfigured.

Lemma unconfigured_analyzer_witness :
  exists self,
    new_AIAnalyzer None = Return self /\
    isAIAvailable self = false /\
    (forall readmeContent, exists msg,
        analyzeReadme failing_vendor self readmeContent = Throw (Error msg) /\
        includes msg "AI provider not configured" = true) /\
    (forall context, exists items,
        generateModernizationRoadmap failing_vendor 0 plain_stringify self context
          = Return (of_strings items) /\
        items <> [] /\
        items = generateBasicRoadmap 0 context).
Proof.
  apply (unconfigured_analyzer failing_vendor 0 plain_stringify None).
  reflexivity.
Defined.

(** C1, as stated, fails for the code-quality operation: without an adapter
    it throws. *)
Lemma code_quality_unconfigured_throws :
  analyzeCodeQuality failing_vendor {| aiProvider := None |} []
    = Throw (Error "AI provider not configured").
Proof. reflexivity. Qed.

Lemma unconfigured_operations_witness :
  (forall readmeContent,
      analyzeReadme failing_vendor {| aiProvider := None |} readmeContent
        = Throw (Error "AI provider not configured")) /\
  (forall files,
      analyzeCodeQuality failing_vendor {| aiProvider := None |} files
        = Throw (Error "AI provider not configured")) /\
  (forall codeSnippets,
      analyzeSecurityConcerns failing_vendor {| aiProvider := None |} codeSnippets
        = Return (JArray [])) /\
  (forall context,
      generateModernizationRoadmap failing_vendor 0 plain_stringify
        {| aiProvider := None |} context
        = Return (of_strings (generateBasicRoadmap 0 context))).
Proof.
  apply (unconfigured_operations failing_vendor 0 plain_stringify
           {| aiProvider := None |}).
  reflexivity.
Defined.

(** ** [JSON.parse] *)

Lemma starts_length (c : ascii) (s rest : string) :
  starts c s = Some rest -> String.length s = S (String.length rest).
Proof.
  destruct s as [|a s]; simpl; [discriminate|].
  destruct (a =? c)%char; [|discriminate].
  intros E. injection E as <-. reflexivity.
Qed.

Lemma skip_ws_length (s : string) :
  (String.length (skip_ws s) <= String.length s)%nat.
Proof.
  induction s as [|a s IH]; simpl; [lia|].
  destruct (is_json_ws a); simpl; lia.
Qed.

Lemma cons_unit_rest (u : N) (r : option (list N * string)) units rest :
  cons_unit u r = Some (units, rest) ->
  exists units', r = Some (units', rest).
Proof.
  destruct r as [[units' rest']|]; simpl; [|discriminate].
  intros E. injection E as _ <-. eauto.
Qed.

Lemma string_body_length (n : nat) :
  forall s units rest,
    (String.length s <= n)%nat ->
    string_body s = Some (units, rest) ->
    (String.length rest < String.length s)%nat.
Proof.
  induction n as [|n IH]; intros s units rest Hn; destruct s as [|a s];
    simpl in *; try discriminate; try lia.
  destruct (a =? quote)%char.
  { intros E. injection E as _ <-. lia. }
  destruct (a =? "\")%char.
  - destruct s as [|e s1]; [discriminate|].
    destruct (escape e).
    + intros E. apply cons_unit_rest in E. destruct E as [units' E].
      apply IH in E; simpl in *; lia.
    + destruct (e =? "u")%char; [|discriminate].
      destruct s1 as [|h1 [|h2 [|h3 [|h4 s2]]]]; try discriminate.
      destruct (hex4 h1 h2 h3 h4); [|discriminate].
      intros E. apply cons_unit_rest in E. destruct E as [units' E].
      apply IH in E; simpl in *; lia.
  - destruct (code a <? 32)%N; [discriminate|].
    intros E. apply cons_unit_rest in E. destruct E as [units' E].
    apply IH in E; simpl in *; lia.
Qed.

Lemma read_digits_length (s : string) :
  forall acc count acc' count' rest,
    read_digits acc count s = (acc', count', rest) ->
    (String.length rest <= String.length s)%nat.
Proof.
  induction s as [|a s IH]; simpl; intros acc count acc' count' rest.
  - intros E. injection E as _ _ <-. simpl. lia.
  - destruct (is_digit a).
    + intros E. apply IH in E. lia.
    + intros E. injection E as _ _ <-. simpl. lia.
Qed.

Lemma read_fraction_length (int : N) (s : string) r places rest :
  read_fraction int s = Some (r, places, rest) ->
  (String.length rest <= String.length s)%nat.
Proof.
  unfold read_fraction.
  destruct (starts "." s) as [s1|] eqn:P.
  - apply starts_length in P.
    destruct (read_digits int 0 s1) as [[m k] rest'] eqn:D.
    apply read_digits_length in D.
    destruct k; [discriminate|].
    intros E. injection E as _ _ <-. lia.
  - intros E. injection E as _ _ <-. lia.
Qed.

Lemma read_sign_length (s : string) negative rest :
  read_sign s = (negative, rest) ->
  (String.length rest <= String.length s)%nat.
Proof.
  unfold read_sign.
  destruct (starts "-" s) as [s1|] eqn:M.
  - apply starts_length in M. intros E. injection E as _ <-. lia.
  - destruct (starts "+" s) as [s1|] eqn:P.
    + apply starts_length in P. intros E. injection E as _ <-. lia.
    + intros E. injection E as _ <-. lia.
Qed.

Lemma read_exponent_length (s : string) e rest :
  read_exponent s = Some (e, rest) ->
  (String.length rest <= String.length s)%nat.
Proof.
  unfold read_exponent.
  destruct s as [|c s]; [intros E; injection E as _ <-; simpl; lia|].
  destruct ((c =? "e")%char || (c =? "E")%char).
  - destruct (read_sign s) as [negative s1] eqn:Sg.
    apply read_sign_length in Sg.
    destruct (read_digits 0 0 s1) as [[m k] rest'] eqn:D.
    apply read_digits_length in D.
    destruct k; [discriminate|].
    intros E. injection E as _ <-. simpl. lia.
  - intros E. injection E as _ <-. simpl. lia.
Qed.

Lemma read_number_length (s : string) n rest :
  read_number s = Some (n, rest) ->
  (String.length rest < String.length s)%nat.
Proof.
  unfold read_number.
  assert (exists negative s1,
             match starts "-" s with
             | Some rest => (true, rest)
             | None => (false, s)
             end = (negative, s1)
             /\ (String.length s1 <= String.length s)%nat)
    as (negative & s1 & -> & Hs1).
  { destruct (starts "-" s) as [s1|] eqn:M.
    - apply starts_length in M. exists true, s1. split; [reflexivity|lia].
    - exists false, s. split; [reflexivity|lia]. }
  destruct s1 as [|d s2]; [discriminate|].
  destruct (is_digit d) eqn:Dg; [|discriminate].
  assert (exists int k rest1,
             (if (d =? "0")%char then (0%N, 1%nat, s2)
              else read_digits 0 0 (String d s2)) = (int, k, rest1)
             /\ (String.length rest1 <= String.length s2)%nat)
    as (int & k & rest1 & -> & Hr1).
  { destruct (d =? "0")%char.
    - exists 0%N, 1%nat, s2. split; [reflexivity|lia].
    - simpl. rewrite Dg.
      destruct (read_digits _ _ s2) as [[m k] r1] eqn:D.
      exists m, k, r1. split; [reflexivity|].
      apply read_digits_length in D. exact D. }
  destruct (read_fraction int rest1) as [[[m places] rest2]|] eqn:F; [|discriminate].
  apply read_fraction_length in F.
  destruct (read_exponent rest2) as [[e rest3]|] eqn:X; [|discriminate].
  apply read_exponent_length in X.
  intros E. injection E as _ <-. simpl in *. lia.
Qed.

Lemma after_length (word : string) (v v' : jsval) (s rest : string) :
  word <> "" ->
  after word v s = Parsed v' rest ->
  v' = v /\ (String.length rest < String.length s)%nat.
Proof.
  unfold after. intros Hw.
  destruct (prefix word s) eqn:P; [|discriminate].
  intros E. injection E as <- <-. split; [reflexivity|].
  assert (String.length word <= String.length s)%nat as Hl.
  { clear Hw. revert s P. induction word as [|c w IH]; intros [|a s]; simpl;
      try discriminate; try lia.
    destruct (ascii_dec c a); [|discriminate].
    intros P. apply IH in P. lia. }
  assert (forall n m t, (String.length (substring n m t) <= m)%nat) as Hsub.
  { induction n as [|n IHn]; intros m t.
    - revert t. induction m as [|m IHm]; intros [|a t]; simpl; try lia.
      specialize (IHm t). lia.
    - destruct t as [|a t]; simpl.
      + destruct m; simpl; lia.
      + apply IHn. }
  specialize (Hsub (String.length word) (String.length s - String.length word)%nat s).
  destruct word; [contradiction Hw; reflexivity|]. simpl in *. lia.
Qed.

(** The fuel is enough: with two units of fuel for each character (and one
    more, or two) the reader never runs out, what it reads is a value, and
    it reads at least one character. *)
Lemma read_fuel (fuel : nat) :
  (forall s, (2 * String.length s + 1 <= fuel)%nat ->
             shorter s (read_value fuel s)) /\
  (forall acc s, (2 * String.length s + 2 <= fuel)%nat ->
                 shorter s (read_elements fuel acc s)) /\
  (forall acc s, (2 * String.length s + 2 <= fuel)%nat ->
                 shorter s (read_members fuel acc s)).
Proof.
  induction fuel as [|fuel (IHv & IHe & IHm)].
  { repeat split; intros; lia. }
  split; [|split].
  - intros s Hf. destruct s as [|a s]; simpl.
    { split; [discriminate|]. intros v rest E. discriminate. }
    simpl in Hf.
    pose proof (skip_ws_length s) as Hws.
    destruct (a =? "{")%char.
    { destruct (starts "}" (skip_ws s)) as [rest1|] eqn:P.
      - apply starts_length in P. split; [discriminate|].
        intros v rest E. injection E as <- <-. split; [discriminate|simpl; lia].
      - destruct (IHm [] (skip_ws s)) as [Hn Hp]; [lia|].
        split; [exact Hn|]. intros v rest E.
        destruct (Hp v rest E). split; [assumption|simpl; lia]. }
    destruct (a =? "[")%char.
    { destruct (starts "]" (skip_ws s)) as [rest1|] eqn:P.
      - apply starts_length in P. split; [discriminate|].
        intros v rest E. injection E as <- <-. split; [discriminate|simpl; lia].
      - destruct (IHe [] (skip_ws s)) as [Hn Hp]; [lia|].
        split; [exact Hn|]. intros v rest E.
        destruct (Hp v rest E). split; [assumption|simpl; lia]. }
    destruct (a =? quote)%char.
    { destruct (string_body s) as [[units rest1]|] eqn:B.
      - apply (string_body_length (String.length s)) in B; [|lia].
        split; [discriminate|].
        intros v rest E. injection E as <- <-. split; [discriminate|simpl; lia].
      - split; [discriminate|]. intros v rest E. discriminate. }
    assert (forall word v0, word <> "" -> v0 <> JUndefined ->
                            shorter (String a s) (after word v0 (String a s)))
      as Hafter.
    { intros word v0 Hw Hv0. split.
      - unfold after. destruct (prefix word (String a s)); discriminate.
      - intros v rest E. apply after_length in E; [|exact Hw].
        destruct E as [-> Hl]. split; assumption. }
    destruct (a =? "t")%char; [apply Hafter; discriminate|].
    destruct (a =? "f")%char; [apply Hafter; discriminate|].
    destruct (a =? "n")%char; [apply Hafter; discriminate|].
    destruct (read_number (String a s)) as [[n rest1]|] eqn:Nb.
    + apply read_number_length in Nb. split; [discriminate|].
      intros v rest E. injection E as <- <-. split; [discriminate|exact Nb].
    + split; [discriminate|]. intros v rest E. discriminate.
  - intros acc s Hf. simpl.
    destruct (IHv s) as [Hn Hp]; [lia|].
    destruct (read_value fuel s) as [v rest| |] eqn:V.
    + destruct (Hp v rest eq_refl) as [_ Hl].
      pose proof (skip_ws_length rest) as Hws.
      destruct (starts "," (skip_ws rest)) as [rest1|] eqn:P.
      * apply starts_length in P.
        pose proof (skip_ws_length rest1) as Hws1.
        destruct (IHe (v :: acc) (skip_ws rest1)) as [Hn' Hp']; [lia|].
        split; [exact Hn'|]. intros v' rest' E.
        destruct (Hp' v' rest' E). split; [assumption|simpl; lia].
      * destruct (starts "]" (skip_ws rest)) as [rest1|] eqn:Q.
        -- apply starts_length in Q. split; [discriminate|].
           intros v' rest' E. injection E as <- <-. split; [discriminate|simpl; lia].
        -- split; [discriminate|]. intros v' rest' E. discriminate.
    + split; [discriminate|]. intros v' rest' E. discriminate.
    + contradiction Hn. reflexivity.
  - intros acc s Hf. simpl.
    destruct (starts quote s) as [rest0|] eqn:P0;
      [|split; [discriminate|]; intros v' rest' E; discriminate].
    apply starts_length in P0.
    destruct (string_body rest0) as [[key rest1]|] eqn:B;
      [|split; [discriminate|]; intros v' rest' E; discriminate].
    apply (string_body_length (String.length rest0)) in B; [|lia].
    pose proof (skip_ws_length rest1) as Hws1.
    destruct (starts ":" (skip_ws rest1)) as [rest2|] eqn:P2;
      [|split; [discriminate|]; intros v' rest' E; discriminate].
    apply starts_length in P2.
    pose proof (skip_ws_length rest2) as Hws2.
    destruct (IHv (skip_ws rest2)) as [Hn Hp]; [lia|].
    destruct (read_value fuel (skip_ws rest2)) as [v rest3| |] eqn:V.
    + destruct (Hp v rest3 eq_refl) as [_ Hl].
      pose proof (skip_ws_length rest3) as Hws3.
      destruct (starts "," (skip_ws rest3)) as [rest4|] eqn:P4.
      * apply starts_length in P4.
        pose proof (skip_ws_length rest4) as Hws4.
        destruct (IHm ((key, v) :: acc) (skip_ws rest4)) as [Hn' Hp']; [lia|].
        split; [exact Hn'|]. intros v' rest' E.
        destruct (Hp' v' rest' E). split; [assumption|simpl; lia].
      * destruct (starts "}" (skip_ws rest3)) as [rest4|] eqn:Q.
        -- apply starts_length in Q. split; [discriminate|].
           intros v' rest' E. injection E as <- <-. split; [discriminate|simpl; lia].
        -- split; [discriminate|]. intros v' rest' E. discriminate.
    + split; [discriminate|]. intros v' rest' E. discriminate.
    + contradiction Hn. reflexivity.
Qed.

(** [JSON.parse] never stops for want of fuel. *)
Lemma read_value_fuel (text : string) :
  read_value (enough_fuel text) (skip_ws text) <> OutOfFuel.
Proof.
  pose proof (skip_ws_length text).
  apply (read_fuel (enough_fuel text)). unfold enough_fuel. lia.
Qed.

(** [JSON.parse] never returns [undefined]. *)
Lemma JSON_parse_defined (text : string) (v : jsval) :
  JSON_parse text = Return v -> v <> JUndefined.
Proof.
  unfold JSON_parse. pose proof (skip_ws_length text).
  destruct (proj1 (read_fuel (enough_fuel text)) (skip_ws text)) as [_ Hp];
    [unfold enough_fuel; lia|].
  destruct (read_value (enough_fuel text) (skip_ws text)) as [v' rest| |];
    try discriminate.
  destruct (skip_ws rest); [|discriminate].
  intros E. injection E as <-. apply (Hp v' rest eq_refl).
Qed.

(** ** The matcher and what a regular expression matches *)

Section Matcher.

Variable fl : flags.

Lemma matches_length (r : regex) prev s prev' s' :
  matches fl r prev s prev' s' ->
  (String.length s' <= String.length s)%nat.
Proof.
  induction 1; simpl in *; lia.
Qed.

(** One iteration after another, as long as each consumes something. *)
Lemma star_loop_spec
    (step : option ascii -> string -> (option ascii -> string -> bool) -> bool)
    (r : regex) (greedy : bool) (k : option ascii -> string -> bool) :
  (forall prev s k',
      step prev s k' = true <->
      exists prev1 s1, matches fl r prev s prev1 s1 /\ k' prev1 s1 = true) ->
  forall fuel prev s,
    (String.length s <= fuel)%nat ->
    (star_loop step greedy k fuel prev s = true <->
     exists prev' s',
       matches fl (Star greedy r) prev s prev' s' /\ k prev' s' = true).
Proof.
  intros Hstep. induction fuel as [|fuel IH]; intros prev s Hf.
  - simpl. split.
    + intros H. exists prev, s. split; [constructor|].
      destruct greedy, (k prev s); congruence.
    + intros (prev' & s' & M & K).
      inversion M; subst.
      * destruct greedy; rewrite K; reflexivity.
      * lia.
  - simpl. split.
    + intros H.
      assert (step prev s
                (fun prev1 s1 =>
                   if (String.length s1 <? String.length s)%nat
                   then star_loop step greedy k fuel prev1 s1
                   else false) = true
              \/ k prev s = true) as [Hm | Hk].
      { destruct greedy.
        - destruct (step prev s _); [left; reflexivity | right; exact H].
        - destruct (k prev s); [right; reflexivity | left; exact H]. }
      * apply Hstep in Hm. destruct Hm as (prev1 & s1 & M & L).
        destruct (Nat.ltb_spec (String.length s1) (String.length s)) as [Hl|Hl];
          [|discriminate].
        apply IH in L; [|lia]. destruct L as (prev' & s' & M' & K).
        exists prev', s'. split; [|exact K].
        eapply M_Star_more; eassumption.
      * exists prev, s. split; [constructor | exact Hk].
    + intros (prev' & s' & M & K).
      inversion M; subst.
      * rewrite K. destruct greedy; [|reflexivity].
        destruct (step prev' s' _); reflexivity.
      * assert (step prev s
                  (fun prev1 s1 =>
                     if (String.length s1 <? String.length s)%nat
                     then star_loop step greedy k fuel prev1 s1
                     else false) = true) as Hm.
        { apply Hstep. exists prev1, s1. split; [assumption|].
          destruct (Nat.ltb_spec (String.length s1) (String.length s)); [|lia].
          apply IH; [lia|]. exists prev', s'. split; assumption. }
        rewrite Hm. destruct greedy; [reflexivity|].
        destruct (k prev s); reflexivity.
Qed.

(** The matcher reaches exactly the end points of the matches. *)
Lemma run_spec (r : regex) :
  forall prev s k,
    run fl r prev s k = true <->
    exists prev' s', matches fl r prev s prev' s' /\ k prev' s' = true.
Proof.
  induction r as [|cs|r1 IH1 r2 IH2|r1 IH1 r2 IH2|greedy r IH|];
    intros prev s k; simpl.
  - split.
    + intros H. exists prev, s. split; [constructor | exact H].
    + intros (prev' & s' & M & K). inversion M; subst. exact K.
  - destruct s as [|a s].
    + split; [discriminate|]. intros (prev' & s' & M & _). inversion M.
    + destruct (unit_in fl cs a) eqn:U.
      * split.
        -- intros H. exists (Some a), s. split; [constructor; exact U | exact H].
        -- intros (prev' & s' & M & K). inversion M; subst. exact K.
      * split; [discriminate|].
        intros (prev' & s' & M & _). inversion M; subst. congruence.
  - rewrite IH1. split.
    + intros (prev1 & s1 & M1 & H). apply IH2 in H.
      destruct H as (prev2 & s2 & M2 & K).
      exists prev2, s2. split; [econstructor; eassumption | exact K].
    + intros (prev2 & s2 & M & K). inversion M; subst.
      eexists _, _. split; [eassumption|]. apply IH2. eauto.
  - split.
    + intros H.
      destruct (run fl r1 prev s k) eqn:R1.
      * apply IH1 in R1. destruct R1 as (prev' & s' & M & K).
        exists prev', s'. split; [apply M_Alt_left; exact M | exact K].
      * apply IH2 in H. destruct H as (prev' & s' & M & K).
        exists prev', s'. split; [apply M_Alt_right; exact M | exact K].
    + intros (prev' & s' & M & K). inversion M; subst.
      * assert (run fl r1 prev s k = true) as -> by (apply IH1; eauto).
        reflexivity.
      * assert (run fl r2 prev s k = true) as -> by (apply IH2; eauto).
        destruct (run fl r1 prev s k); reflexivity.
  - apply star_loop_spec; [exact IH | lia].
  - destruct (at_line_start fl prev) eqn:B.
    + split.
      * intros H. exists prev, s. split; [constructor; exact B | exact H].
      * intros (prev' & s' & M & K). inversion M; subst. exact K.
    + split; [discriminate|].
      intros (prev' & s' & M & _). inversion M; subst. congruence.
Qed.

(** The search finds a match at some index. *)
Lemma search_spec (r : regex) (s : string) :
  forall prev,
    search fl r prev s = true <->
    exists before rest prev' s',
      s = before ++ rest /\
      matches fl r (last_unit prev before) rest prev' s'.
Proof.
  induction s as [|a s IH]; intros prev; simpl.
  - destruct (run fl r prev "" (fun _ _ => true)) eqn:R.
    + split; [|reflexivity]. intros _.
      apply run_spec in R. destruct R as (prev' & s' & M & _).
      exists "", "", prev', s'. split; [reflexivity | exact M].
    + split; [discriminate|].
      intros (before & rest & prev' & s' & E & M).
      destruct before; [|discriminate]. simpl in E. subst rest. simpl in M.
      assert (run fl r prev "" (fun _ _ => true) = true) by (apply run_spec; eauto).
      congruence.
  - destruct (run fl r prev (String a s) (fun _ _ => true)) eqn:R.
    + split; [|reflexivity]. intros _.
      apply run_spec in R. destruct R as (prev' & s' & M & _).
      exists "", (String a s), prev', s'. split; [reflexivity | exact M].
    + rewrite IH. split.
      * intros (before & rest & prev' & s' & E & M).
        exists (String a before), rest, prev', s'. subst s. split; [reflexivity|].
        exact M.
      * intros (before & rest & prev' & s' & E & M).
        destruct before as [|b before]; simpl in E.
        -- subst rest. simpl in M.
           assert (run fl r prev (String a s) (fun _ _ => true) = true)
             by (apply run_spec; eauto).
           congruence.
        -- injection E as <- ->. exists before, rest, prev', s'.
           split; [reflexivity | exact M].
Qed.

(** [test]: some part of the string, at some index, is matched. *)
Lemma test_spec (r : regex) (s : string) :
  test fl r s = true <->
  exists before rest prev' s',
    s = before ++ rest /\
    matches fl r (last_unit None before) rest prev' s'.
Proof. apply search_spec. Qed.

End Matcher.

(** ** Strings as sequences *)

Lemma append_assoc (a b c : string) : (a ++ b) ++ c = a ++ b ++ c.
Proof. induction a as [|x a IH]; simpl; [reflexivity | now rewrite IH]. Qed.

Lemma append_empty_r (a : string) : a ++ "" = a.
Proof. induction a as [|x a IH]; simpl; [reflexivity | now rewrite IH]. Qed.

Lemma length_append (a b : string) :
  String.length (a ++ b) = (String.length a + String.length b)%nat.
Proof. induction a as [|x a IH]; simpl; [reflexivity | now rewrite IH]. Qed.

Lemma append_inv_tail (a b c : string) : a ++ b = a ++ c -> b = c.
Proof.
  induction a as [|x a IH]; simpl; [trivial|].
  intros E. injection E as E. auto.
Qed.

Lemma last_unit_append (prev : option ascii) (a b : string) :
  last_unit prev (a ++ b) = last_unit (last_unit prev a) b.
Proof. revert prev. induction a as [|x a IH]; simpl; intros; [reflexivity | apply IH]. Qed.

Lemma all_units_append (ok : ascii -> bool) (a b : string) :
  all_units ok (a ++ b) = true <->
  all_units ok a = true /\ all_units ok b = true.
Proof.
  induction a as [|x a IH]; simpl.
  - intuition.
  - destruct (ok x); [exact IH | intuition discriminate].
Qed.

(** ** The language of a regular expression *)

Section Language.

Variable fl : flags.

(** A match is of a prefix, and does not look at what follows it. *)
Lemma matches_prefix (r : regex) prev s prev' s' :
  matches fl r prev s prev' s' ->
  exists m,
    s = m ++ s' /\ prev' = last_unit prev m /\
    forall t, matches fl r prev (m ++ t) prev' t.
Proof.
  induction 1 as
    [ prev s
    | cs prev a s U
    | r1 r2 prev s prev1 s1 prev2 s2 _ (m1 & E1 & P1 & F1) _ (m2 & E2 & P2 & F2)
    | r1 r2 prev s prev' s' _ (m & E & P & F)
    | r1 r2 prev s prev' s' _ (m & E & P & F)
    | greedy r prev s
    | greedy r prev s prev1 s1 prev2 s2 _ (m1 & E1 & P1 & F1) L
        _ (m2 & E2 & P2 & F2)
    | prev s B ].
  - exists "". repeat split. intros t. constructor.
  - exists (String a ""). repeat split. intros t. constructor. exact U.
  - exists (m1 ++ m2). subst. rewrite append_assoc, last_unit_append.
    repeat split. intros t. rewrite append_assoc.
    econstructor; [apply F1 | apply F2].
  - exists m. repeat split; try assumption. intros t. apply M_Alt_left, F.
  - exists m. repeat split; try assumption. intros t. apply M_Alt_right, F.
  - exists "". repeat split. intros t. constructor.
  - exists (m1 ++ m2). subst. rewrite append_assoc, last_unit_append.
    repeat split. intros t. rewrite append_assoc.
    eapply M_Star_more; [apply F1 | | apply F2].
    rewrite !length_append in *. lia.
  - exists "". repeat split. intros t. constructor. exact B.
Qed.

Lemma matches_accepts (r : regex) prev s prev' s' :
  matches fl r prev s prev' s' <->
  exists m, s = m ++ s' /\ prev' = last_unit prev m /\ accepts fl r prev m.
Proof.
  split.
  - intros M. apply matches_prefix in M. destruct M as (m & E & P & F).
    exists m. repeat split; try assumption.
    unfold accepts. rewrite <- P.
    specialize (F ""). rewrite append_empty_r in F. exact F.
  - intros (m & -> & -> & A). apply matches_prefix in A.
    destruct A as (m' & E & _ & F).
    rewrite append_empty_r in E. subst m'. apply F.
Qed.

Lemma accepts_Empty prev m : accepts fl Empty prev m <-> m = "".
Proof.
  unfold accepts. split.
  - intros M. inversion M; subst. reflexivity.
  - intros ->. constructor.
Qed.

Lemma accepts_Chr cs prev m :
  accepts fl (Chr cs) prev m <-> exists a, m = String a "" /\ unit_in fl cs a = true.
Proof.
  unfold accepts. split.
  - intros M. inversion M; subst. eauto.
  - intros (a & -> & U). simpl. constructor. exact U.
Qed.

Lemma accepts_Seq r1 r2 prev m :
  accepts fl (Seq r1 r2) prev m <->
  exists m1 m2,
    m = m1 ++ m2 /\ accepts fl r1 prev m1 /\ accepts fl r2 (last_unit prev m1) m2.
Proof.
  unfold accepts at 1. split.
  - intros M. inversion M as [| |? ? ? ? prev1 s1 ? ? M1 M2| | | | |]; subst.
    apply matches_accepts in M1. destruct M1 as (m1 & E1 & P1 & A1).
    apply matches_accepts in M2. destruct M2 as (m2 & E2 & P2 & A2).
    rewrite append_empty_r in E2. subst.
    exists m1, m2. repeat split; assumption.
  - intros (m1 & m2 & -> & A1 & A2).
    rewrite last_unit_append.
    econstructor.
    + apply matches_accepts. exists m1. repeat split. exact A1.
    + exact A2.
Qed.

Lemma accepts_Alt r1 r2 prev m :
  accepts fl (Alt r1 r2) prev m <-> accepts fl r1 prev m \/ accepts fl r2 prev m.
Proof.
  unfold accepts. split.
  - intros M. inversion M; subst; [left | right]; assumption.
  - intros [M | M]; [apply M_Alt_left | apply M_Alt_right]; exact M.
Qed.

Lemma accepts_Bol prev m :
  accepts fl Bol prev m <-> m = "" /\ at_line_start fl prev = true.
Proof.
  unfold accepts. split.
  - intros M. inversion M; subst. split; [reflexivity | assumption].
  - intros [-> B]. constructor. exact B.
Qed.

(** A star of one class of code units: any run of them. *)
Lemma accepts_Star_Chr greedy cs prev m :
  accepts fl (Star greedy (Chr cs)) prev m <-> all_units (unit_in fl cs) m = true.
Proof.
  unfold accepts. split.
  - remember (Star greedy (Chr cs)) as r eqn:R.
    remember (last_unit prev m) as prev' eqn:P.
    remember "" as s' eqn:S.
    intros M. revert P S.
    induction M as [| | | | | |g r0 prev s prev1 s1 prev2 s2 M1 _ L M2 IH|];
      try discriminate; intros P S.
    + subst. reflexivity.
    + injection R as -> ->. inversion M1; subst. simpl.
      match goal with H : unit_in _ _ _ = true |- _ => rewrite H end.
      apply IH; reflexivity.
  - revert prev. induction m as [|a m IH]; intros prev; simpl.
    + intros _. constructor.
    + destruct (unit_in fl cs a) eqn:U; [|discriminate].
      intros H. eapply M_Star_more.
      * constructor. exact U.
      * simpl. lia.
      * apply IH. exact H.
Qed.

Lemma accepts_Plus_Chr cs prev m :
  accepts fl (Plus (Chr cs)) prev m <->
  m <> "" /\ all_units (unit_in fl cs) m = true.
Proof.
  unfold Plus. rewrite accepts_Seq. split.
  - intros (m1 & m2 & -> & A1 & A2).
    apply accepts_Chr in A1. destruct A1 as (a & -> & U).
    apply accepts_Star_Chr in A2. simpl. rewrite U.
    split; [discriminate | exact A2].
  - intros [Hm H]. destruct m as [|a m]; [contradiction Hm; reflexivity|].
    simpl in H. destruct (unit_in fl cs a) eqn:U; [|discriminate].
    exists (String a ""), m. split; [reflexivity|]. split.
    + apply accepts_Chr. eauto.
    + apply accepts_Star_Chr. exact H.
Qed.

(** A run of pattern characters: a text that spells it. *)
Lemma accepts_Str word prev m :
  accepts fl (Str word) prev m <-> spells fl word m = true.
Proof.
  revert prev m. induction word as [|c word IH]; intros prev m.
  - simpl. rewrite accepts_Empty. destruct m; split; congruence.
  - destruct word as [|c' word].
    + simpl. rewrite accepts_Chr. split.
      * intros (a & -> & U). simpl in U. rewrite U. reflexivity.
      * destruct m as [|a m]; [discriminate|].
        destruct (if ignoreCase fl then _ else _) eqn:U; [|discriminate].
        destruct m; [|discriminate]. intros _. exists a. split; [reflexivity | exact U].
    + change (Str (String c (String c' word)))
        with (Seq (Chr (Lit c)) (Str (String c' word))).
      rewrite accepts_Seq. split.
      * intros (m1 & m2 & -> & A1 & A2).
        apply accepts_Chr in A1. destruct A1 as (a & -> & U).
        apply IH in A2. simpl in U |- *. rewrite U. exact A2.
      * destruct m as [|a m]; [discriminate|].
        change (spells fl (String c (String c' word)) (String a m))
          with (if unit_in fl (Lit c) a then spells fl (String c' word) m else false).
        destruct (unit_in fl (Lit c) a) eqn:U; [|discriminate].
        intros H. exists (String a ""), m. split; [reflexivity|]. split.
        -- apply accepts_Chr. eauto.
        -- apply IH. exact H.
Qed.

(** [test], by what is matched. *)
Lemma test_accepts (r : regex) (s : string) :
  test fl r s = true <->
  exists before m rest,
    s = before ++ m ++ rest /\ accepts fl r (last_unit None before) m.
Proof.
  rewrite test_spec. split.
  - intros (before & rest & prev' & s' & -> & M).
    apply matches_accepts in M. destruct M as (m & -> & _ & A).
    exists before, m, s'. split; [reflexivity | exact A].
  - intros (before & m & rest & -> & A).
    exists before, (m ++ rest), (last_unit (last_unit None before) m), rest.
    split; [reflexivity|]. apply matches_accepts. exists m. repeat split. exact A.
Qed.

End Language.

(** ** Letter case *)

Lemma all_ascii_complete (a : ascii) : In a all_ascii.
Proof.
  unfold all_ascii. rewrite <- (ascii_nat_embedding a).
  apply in_map, in_seq. pose proof (nat_ascii_bounded a). lia.
Qed.

Lemma forall_ascii (P : ascii -> bool) :
  forallb P all_ascii = true -> forall a, P a = true.
Proof.
  intros H a. rewrite forallb_forall in H. apply H, all_ascii_complete.
Qed.

(** Under the [i] flag two code units are the same when their lower-case
    forms are. *)
Lemma canonicalize_lower (a c : ascii) :
  (canonicalize a =? canonicalize c)%N = (lower_unit a =? lower_unit c)%char.
Proof.
  revert c. 
  assert (forallb (fun a => forallb (fun c =>
            Bool.eqb (canonicalize a =? canonicalize c)%N
                     (lower_unit a =? lower_unit c)%char) all_ascii) all_ascii
          = true) as H by (vm_compute; reflexivity).
  intros c. apply Bool.eqb_prop.
  exact (forall_ascii _ (forall_ascii _ H a) c).
Qed.

Lemma spells_i (word m : string) :
  spells flag_i word m = true <-> toLowerCase m = toLowerCase word.
Proof.
  revert m. induction word as [|c word IH]; intros [|a m]; simpl;
    try (split; congruence).
  rewrite canonicalize_lower.
  destruct (Ascii.eqb_spec (lower_unit a) (lower_unit c)) as [E|E].
  - rewrite IH, E. split; [congruence|]. intros H. injection H. trivial.
  - split; [discriminate|]. intros H. injection H. intros _ E'. contradiction.
Qed.

Lemma spells_plain (word m : string) :
  spells no_flags word m = true <-> m = word.
Proof.
  revert m. induction word as [|c word IH]; intros [|a m]; simpl;
    try (split; congruence).
  destruct (N.eqb_spec (code a) (code c)) as [E|E].
  - apply code_inj in E. subst. rewrite IH. split; congruence.
  - split; [discriminate|]. intros H. injection H as -> _. contradiction E.
    reflexivity.
Qed.

Lemma spells_m (word m : string) :
  spells flag_m word m = true <-> m = word.
Proof.
  revert m. induction word as [|c word IH]; intros [|a m]; simpl;
    try (split; congruence).
  destruct (N.eqb_spec (code a) (code c)) as [E|E].
  - apply code_inj in E. subst. rewrite IH. split; congruence.
  - split; [discriminate|]. intros H. injection H as -> _. contradiction E.
    reflexivity.
Qed.

(** The number sign has one case only. *)
Lemma lower_unit_number_sign (a : ascii) : lower_unit a = "#"%char -> a = "#"%char.
Proof.
  assert (forallb (fun a => implb (lower_unit a =? "#")%char (a =? "#")%char)
            all_ascii = true) as H by (vm_compute; reflexivity).
  intros E. pose proof (forall_ascii _ H a) as Ha. cbv beta in Ha.
  rewrite E in Ha. apply Ascii.eqb_eq. exact Ha.
Qed.

Lemma toLowerCase_number_signs (m : string) : toLowerCase m = "##" -> m = "##".
Proof.
  destruct m as [|a [|b [|c m]]]; simpl; try discriminate.
  intros E. injection E as Ea Eb.
  apply lower_unit_number_sign in Ea, Eb. subst. reflexivity.
Qed.

(** ** What the literals of the scorers test *)

Lemma all_units_any_unit (fl : flags) (m : string) :
  all_units (unit_in fl (Union Space NotSpace)) m = true.
Proof.
  induction m as [|a m IH]; simpl; [reflexivity|].
  destruct (is_space a); simpl; exact IH.
Qed.

Lemma accepts_blanks (fl : flags) prev gap :
  accepts fl (Plus (Chr Space)) prev gap <-> blanks gap.
Proof. rewrite accepts_Plus_Chr. reflexivity. Qed.

Lemma accepts_one_line (fl : flags) greedy prev text :
  accepts fl (Star greedy (Chr Dot)) prev text <-> one_line text.
Proof. rewrite accepts_Star_Chr. reflexivity. Qed.

Lemma accepts_one_line_text (fl : flags) prev text :
  accepts fl (Plus (Chr Dot)) prev text <-> text <> "" /\ one_line text.
Proof. rewrite accepts_Plus_Chr. reflexivity. Qed.

(** Taking a sequence apart. *)
Tactic Notation "take_apart" hyp(A) "as" ident(m1) ident(m2) ident(A1) ident(A2) :=
  apply accepts_Seq in A; destruct A as (m1 & m2 & -> & A1 & A2).

Lemma test_re_code_block (s : string) :
  test no_flags re_code_block s = true <-> has_code_block s.
Proof.
  rewrite test_accepts. unfold re_code_block, has_code_block. split.
  - intros (before & m & rest & -> & A).
    take_apart A as open tail Ao At. take_apart At as inside close Ai Ac.
    apply accepts_Str, spells_plain in Ao, Ac. subst.
    exists before, inside, rest. rewrite !append_assoc. reflexivity.
  - intros (before & inside & rest & ->).
    exists before, ("```" ++ inside ++ "```"), rest. split.
    + rewrite !append_assoc. reflexivity.
    + apply accepts_Seq. exists "```", (inside ++ "```").
      split; [reflexivity|]. split; [apply accepts_Str, spells_plain; reflexivity|].
      apply accepts_Seq. exists inside, "```". split; [reflexivity|].
      split; [apply accepts_Star_Chr, all_units_any_unit|].
      apply accepts_Str, spells_plain. reflexivity.
Qed.

Lemma test_re_link (s : string) :
  test no_flags re_link s = true <-> has_link s.
Proof.
  rewrite test_accepts. unfold re_link, has_link. split.
  - intros (before & m & rest & -> & A).
    take_apart A as open t1 Ao A1. take_apart A1 as text t2 At A2.
    take_apart A2 as mid t3 Am A3. take_apart A3 as target close Ag Ac.
    apply accepts_Str, spells_plain in Ao, Am, Ac. subst.
    apply accepts_one_line_text in At, Ag.
    exists before, text, target, rest. rewrite !append_assoc.
    split; [reflexivity|]. tauto.
  - intros (before & text & target & rest & -> & T1 & T2 & G1 & G2).
    exists before, ("[" ++ text ++ "](" ++ target ++ ")"), rest. split.
    + rewrite !append_assoc. reflexivity.
    + apply accepts_Seq. exists "[", (text ++ "](" ++ target ++ ")").
      split; [reflexivity|]. split; [apply accepts_Str, spells_plain; reflexivity|].
      apply accepts_Seq. exists text, ("](" ++ target ++ ")").
      split; [reflexivity|]. split; [apply accepts_one_line_text; tauto|].
      apply accepts_Seq. exists "](", (target ++ ")").
      split; [reflexivity|]. split; [apply accepts_Str, spells_plain; reflexivity|].
      apply accepts_Seq. exists target, ")".
      split; [reflexivity|]. split; [apply accepts_one_line_text; tauto|].
      apply accepts_Str, spells_plain. reflexivity.
Qed.

Lemma test_re_badge (s : string) :
  test no_flags re_badge s = true <-> has_badge s.
Proof.
  rewrite test_accepts. unfold re_badge, has_badge. split.
  - intros (before & m & rest & -> & A).
    take_apart A as open t1 Ao A1. take_apart A1 as text t2 At A2.
    take_apart A2 as mid t3 Am A3. take_apart A3 as target close Ag Ac.
    apply accepts_Str, spells_plain in Ao, Am, Ac. subst.
    apply accepts_one_line in At, Ag.
    exists before, text, target, rest. rewrite !append_assoc.
    split; [reflexivity|]. tauto.
  - intros (before & text & target & rest & -> & T & G).
    exists before, ("![" ++ text ++ "](" ++ target ++ ")"), rest. split.
    + rewrite !append_assoc. reflexivity.
    + apply accepts_Seq. exists "![", (text ++ "](" ++ target ++ ")").
      split; [reflexivity|]. split; [apply accepts_Str, spells_plain; reflexivity|].
      apply accepts_Seq. exists text, ("](" ++ target ++ ")").
      split; [reflexivity|]. split; [apply accepts_one_line; exact T|].
      apply accepts_Seq. exists "](", (target ++ ")").
      split; [reflexivity|]. split; [apply accepts_Str, spells_plain; reflexivity|].
      apply accepts_Seq. exists target, ")".
      split; [reflexivity|]. split; [apply accepts_one_line; exact G|].
      apply accepts_Str, spells_plain. reflexivity.
Qed.

Lemma test_re_title (s : string) :
  test flag_m re_title s = true <-> has_top_level_heading s.
Proof.
  rewrite test_accepts. unfold re_title, has_top_level_heading. split.
  - intros (before & m & rest & -> & A).
    take_apart A as start t1 Ab A1. take_apart A1 as sign t2 As A2.
    take_apart A2 as gap text Ag At.
    apply accepts_Bol in Ab. destruct Ab as [-> B].
    apply accepts_Str, spells_m in As. subst.
    apply accepts_blanks in Ag. apply accepts_one_line_text in At.
    exists before, gap, text, rest. simpl. rewrite !append_assoc.
    split; [reflexivity|]. tauto.
  - intros (before & gap & text & rest & -> & B & G & T1 & T2).
    exists before, ("#" ++ gap ++ text), rest. split.
    + rewrite !append_assoc. reflexivity.
    + apply accepts_Seq. exists "", ("#" ++ gap ++ text).
      split; [reflexivity|]. split; [apply accepts_Bol; tauto|].
      apply accepts_Seq. exists "#", (gap ++ text).
      split; [reflexivity|]. split; [apply accepts_Str, spells_m; reflexivity|].
      apply accepts_Seq. exists gap, text.
      split; [reflexivity|]. split; [apply accepts_blanks; exact G|].
      apply accepts_one_line_text. tauto.
Qed.

(** A keyword under the [i] flag. *)
Lemma test_keyword (word : string) (s : string) :
  toLowerCase word = word ->
  (test flag_i (Str word) s = true <-> mentions word s).
Proof.
  intros Hw. rewrite test_accepts. unfold mentions. split.
  - intros (before & m & rest & -> & A).
    apply accepts_Str, spells_i in A. rewrite Hw in A. eauto.
  - intros (before & w & rest & -> & E).
    exists before, w, rest. split; [reflexivity|].
    apply accepts_Str, spells_i. rewrite Hw. exact E.
Qed.

Lemma test_re_api_reference (s : string) :
  test flag_i re_api_reference s = true <->
  mentions "api" s \/ mentions "reference" s.
Proof.
  rewrite test_accepts. unfold re_api_reference, mentions. split.
  - intros (before & m & rest & -> & A).
    apply accepts_Alt in A. destruct A as [A | A];
      apply accepts_Str, spells_i in A; [left | right]; eauto.
  - intros [(before & w & rest & -> & E) | (before & w & rest & -> & E)];
      exists before, w, rest; (split; [reflexivity|]); apply accepts_Alt;
      [left | right]; apply accepts_Str, spells_i; exact E.
Qed.

Lemma accepts_number_signs prev m :
  accepts flag_i (Str "##") prev m <-> m = "##".
Proof.
  rewrite accepts_Str, spells_i. split.
  - apply toLowerCase_number_signs.
  - intros ->. reflexivity.
Qed.

Lemma accepts_word (word : string) prev m :
  accepts flag_i (Str word) prev m <-> toLowerCase m = toLowerCase word.
Proof. rewrite accepts_Str. apply spells_i. Qed.

Lemma test_re_installation_section (s : string) :
  test flag_i re_installation_section s = true <->
  has_section ["installation"; "install"; "setup"] s.
Proof.
  rewrite test_accepts. unfold re_installation_section, has_section. split.
  - intros (before & m & rest & -> & A).
    take_apart A as signs t1 As A1. take_apart A1 as gap title Ag At.
    apply accepts_number_signs in As. subst signs.
    apply accepts_blanks in Ag.
    exists before, gap, title, rest. rewrite !append_assoc.
    split; [reflexivity|]. split; [exact Ag|].
    apply accepts_Alt in At. destruct At as [At | At];
      [|apply accepts_Alt in At; destruct At as [At | At]];
      apply accepts_word in At; rewrite At; simpl; tauto.
  - intros (before & gap & title & rest & -> & G & T).
    exists before, ("##" ++ gap ++ title), rest. split.
    + rewrite !append_assoc. reflexivity.
    + apply accepts_Seq. exists "##", (gap ++ title).
      split; [reflexivity|]. split; [apply accepts_number_signs; reflexivity|].
      apply accepts_Seq. exists gap, title.
      split; [reflexivity|]. split; [apply accepts_blanks; exact G|].
      destruct T as [T | [T | [T | []]]].
      * apply accepts_Alt. left. apply accepts_word. rewrite <- T. reflexivity.
      * apply accepts_Alt. right. apply accepts_Alt. left.
        apply accepts_word. rewrite <- T. reflexivity.
      * apply accepts_Alt. right. apply accepts_Alt. right.
        apply accepts_word. rewrite <- T. reflexivity.
Qed.

Lemma test_re_usage_section (s : string) :
  test flag_i re_usage_section s = true <->
  has_section ["usage"; "example"] s \/ has_quick_start_section s.
Proof.
  rewrite test_accepts.
  unfold re_usage_section, has_section, has_quick_start_section. split.
  - intros (before & m & rest & -> & A).
    take_apart A as signs t1 As A1. take_apart A1 as gap title Ag At.
    apply accepts_number_signs in As. subst signs.
    apply accepts_blanks in Ag.
    apply accepts_Alt in At. destruct At as [At | At];
      [|apply accepts_Alt in At; destruct At as [At | At]].
    + left. exists before, gap, title, rest. rewrite !append_assoc.
      split; [reflexivity|]. split; [exact Ag|].
      apply accepts_word in At. rewrite At. simpl. tauto.
    + left. exists before, gap, title, rest. rewrite !append_assoc.
      split; [reflexivity|]. split; [exact Ag|].
      apply accepts_word in At. rewrite At. simpl. tauto.
    + right. take_apart At as quick t2 Aq A2. take_apart A2 as gap' start Ag' Ast.
      apply accepts_word in Aq, Ast. apply accepts_blanks in Ag'.
      exists before, gap, quick, gap', start, rest. rewrite !append_assoc.
      split; [reflexivity|]. tauto.
  - intros [(before & gap & title & rest & -> & G & T)
           | (before & gap & quick & gap' & start & rest & -> & G & Q & G' & St)].
    + exists before, ("##" ++ gap ++ title), rest. split.
      * rewrite !append_assoc. reflexivity.
      * apply accepts_Seq. exists "##", (gap ++ title).
        split; [reflexivity|]. split; [apply accepts_number_signs; reflexivity|].
        apply accepts_Seq. exists gap, title.
        split; [reflexivity|]. split; [apply accepts_blanks; exact G|].
        destruct T as [T | [T | []]].
        -- apply accepts_Alt. left. apply accepts_word. rewrite <- T. reflexivity.
        -- apply accepts_Alt. right. apply accepts_Alt. left.
           apply accepts_word. rewrite <- T. reflexivity.
    + exists before, ("##" ++ gap ++ quick ++ gap' ++ start), rest. split.
      * rewrite !append_assoc. reflexivity.
      * apply accepts_Seq. exists "##", (gap ++ quick ++ gap' ++ start).
        split; [reflexivity|]. split; [apply accepts_number_signs; reflexivity|].
        apply accepts_Seq. exists gap, (quick ++ gap' ++ start).
        split; [reflexivity|]. split; [apply accepts_blanks; exact G|].
        apply accepts_Alt. right. apply accepts_Alt. right.
        apply accepts_Seq. exists quick, (gap' ++ start).
        split; [reflexivity|]. split; [apply accepts_word; rewrite Q; reflexivity|].
        apply accepts_Seq. exists gap', start.
        split; [reflexivity|]. split; [apply accepts_blanks; exact G'|].
        apply accepts_word. rewrite St. reflexivity.
Qed.

(** ** The heuristic scorers *)

Lemma points_nonneg_le (table : list (bool * Z)) (bound : Z) :
  Forall (fun entry => 0 <= snd entry) table ->
  fold_right (fun entry total => snd entry + total) 0 table <= bound ->
  0 <= points table <= bound.
Proof.
  revert bound. induction table as [|[holds value] table IH]; simpl; intros bound F Hb.
  - lia.
  - inversion F as [|? ? Hv F']; subst. simpl in Hv.
    specialize (IH (bound - value) F'). destruct holds; lia.
Qed.

Lemma calculateReadmeQuality_points (content : string) :
  calculateReadmeQuality (Some content) =
    Z.min 100
      (points [ (len content >=? 200, 10);
                (len content >=? 500, 10);
                (test flag_m re_title content, 10);
                (len content >? 100, 10);
                (test flag_i re_installation_section content, 15);
                (test flag_i re_usage_section content, 15);
                (test no_flags re_code_block content, 10);
                (test no_flags re_link content, 10);
                (test no_flags re_badge content, 10) ]).
Proof.
  unfold calculateReadmeQuality, points.
  destruct content as [|a s].
  - reflexivity.
  - cbv zeta. unfold falsy_string.
    destruct (Z.geb_spec (len (String a s)) 500) as [H5|H5];
      destruct (Z.geb_spec (len (String a s)) 200) as [H2|H2]; try lia;
      destruct (test flag_m re_title _), (len (String a s) >? 100),
        (test flag_i re_installation_section _),
        (test flag_i re_usage_section _), (test no_flags re_code_block _),
        (test no_flags re_link _), (test no_flags re_badge _); reflexivity.
Qed.

Lemma calculateBasicReadmeScore_points (content : string) :
  calculateBasicReadmeScore content =
    Z.min 100
      (points [ (len content >? 500, 20);
                (len content >? 1500, 10);
                (test flag_i re_installation content, 15);
                (test flag_i re_usage content, 15);
                (test flag_i re_example content, 10);
                (test flag_i re_api_reference content, 10);
                (test flag_i re_contributing content, 10);
                (test flag_i re_license content, 10) ]).
Proof.
  unfold calculateBasicReadmeScore, points. cbv zeta.
  destruct (len content >? 500), (len content >? 1500),
    (test flag_i re_installation _), (test flag_i re_usage _),
    (test flag_i re_example _), (test flag_i re_api_reference _),
    (test flag_i re_contributing _), (test flag_i re_license _); reflexivity.
Qed.

Lemma calculateBasicReadmeScore_bounds (content : string) :
  0 <= calculateBasicReadmeScore content <= 100.
Proof.
  rewrite calculateBasicReadmeScore_points.
  match goal with
  | |- context [points ?t] =>
      pose proof (points_nonneg_le t 100) as H
  end.
  simpl fold_right in H.
  assert (0 <= points
            [(len content >? 500, 20); (len content >? 1500, 10);
             (test flag_i re_installation content, 15);
             (test flag_i re_usage content, 15);
             (test flag_i re_example content, 10);
             (test flag_i re_api_reference content, 10);
             (test flag_i re_contributing content, 10);
             (test flag_i re_license content, 10)] <= 100) as B.
  { apply H; [|lia]. repeat constructor; simpl; lia. }
  lia.
Qed.

Lemma calculateReadmeQuality_bounds (content : option string) :
  0 <= calculateReadmeQuality content <= 100.
Proof.
  destruct content as [content|]; [|simpl; lia].
  rewrite calculateReadmeQuality_points.
  match goal with
  | |- context [points ?t] =>
      pose proof (points_nonneg_le t 100) as H; simpl fold_right in H;
      assert (0 <= points t <= 100) as B
        by (apply H; [repeat constructor; simpl; lia | lia])
  end.
  lia.
Qed.

(** C5, as amended: the scorers are functions of the README alone with
    values from 0 to 100; the roadmap is a function of the context and of
    the clock, and is the same for two calls that agree on the two flags and
    on whether the whole days since the last update exceed 180. *)
Theorem heuristics_determined :
  (forall content, 0 <= calculateBasicReadmeScore content <= 100) /\
  (forall content, 0 <= calculateReadmeQuality content <= 100) /\
  (forall now1 now2 context1 context2,
      hasTests context1 = hasTests context2 ->
      hasCICD context1 = hasCICD context2 ->
      exceeds (daysSinceUpdate now1 context1) 180
        = exceeds (daysSinceUpdate now2 context2) 180 ->
      generateBasicRoadmap now1 context1 = generateBasicRoadmap now2 context2).
Proof.
  split; [exact calculateBasicReadmeScore_bounds|].
  split; [exact calculateReadmeQuality_bounds|].
  intros now1 now2 context1 context2 Ht Hc Hd.
  rewrite !generateBasicRoadmap_eq, Ht, Hc, Hd. reflexivity.
Qed.

Lemma heuristics_determined_witness :
  generateBasicRoadmap 1700000000000 (tested_project 1699000000000)
    = generateBasicRoadmap 1700000600000
        {| technologies := ["javascript"; "node"];
           lastUpdate := Some 1690000000000;
           hasTests := true; hasCICD := true |}.
Proof.
  apply (proj2 (proj2 heuristics_determined)); reflexivity.
Defined.

(** C5, as stated, fails for the roadmap: the same context gives one list
    on the day of the update and another 181 days later. *)
Lemma roadmap_reads_the_clock :
  generateBasicRoadmap 1700000000000 (tested_project 1700000000000)
    = [ "Long-term: Implement comprehensive documentation";
        "Long-term: Increase test coverage to 80%+" ] /\
  generateBasicRoadmap (1700000000000 + 181 * 86400000)
    (tested_project 1700000000000)
    = [ "Short-term: Update dependencies to latest versions";
        "Long-term: Implement comprehensive documentation";
        "Long-term: Increase test coverage to 80%+" ].
Proof. split; reflexivity. Qed.

(** ** README analysis with an adapter *)

Section WithAdapter.

Variable analyze : AIProvider -> AIAnalysisRequest -> result AIAnalysisResponse.

Lemma get_defined (v : jsval) (name : string) :
  v <> JUndefined -> v <> JNull -> exists field, get v name = Return field.
Proof.
  destruct v; simpl; intros U Nl; try congruence; eauto.
Qed.

(** C10, as amended: when the call succeeds and the answer parses to a
    value other than [null], the result is fixed by the two members of the
    parsed value alone: the score returned is the score member when that is
    truthy and 50 otherwise (so when the member is absent, [null] or zero),
    the suggestions are the suggestions member when truthy and the empty
    list otherwise (so when it is absent); the heuristic scorer has no part
    in the result. *)
Theorem analyzeReadme_parsed
    (p : AIProvider) (readmeContent : string)
    (response : AIAnalysisResponse) (parsed : jsval) :
  analyze p (readme_request readmeContent) = Return response ->
  JSON_parse (result_text response) = Return parsed ->
  parsed <> JNull ->
  exists score suggested,
    get parsed "score" = Return score /\
    get parsed "suggestions" = Return suggested /\
    analyzeReadme analyze {| aiProvider := Some p |} readmeContent
      = Return {| qualityScore := or_else score (JNumber (of_Z 50));
                  suggestions := or_else suggested (JArray []) |} /\
    (truthy score = true -> or_else score (JNumber (of_Z 50)) = score) /\
    (truthy score = false ->
     or_else score (JNumber (of_Z 50)) = JNumber (of_Z 50)) /\
    (score = JUndefined \/ score = JNull
     \/ (exists n, score = JNumber n /\ is_zero n = true) ->
     truthy score = false) /\
    (truthy suggested = true -> or_else suggested (JArray []) = suggested) /\
    (truthy suggested = false -> or_else suggested (JArray []) = JArray []) /\
    (suggested = JUndefined -> truthy suggested = false).
Proof.
  intros Ha Hp Hn.
  pose proof (JSON_parse_defined _ _ Hp) as Hu.
  destruct (get_defined parsed "score" Hu Hn) as [score Hs].
  destruct (get_defined parsed "suggestions" Hu Hn) as [suggested Hg].
  exists score, suggested.
  split; [exact Hs|]. split; [exact Hg|].
  split.
  { cbv beta iota zeta delta [analyzeReadme aiProvider].
    unfold readme_request in Ha. rewrite Ha.
    cbn [bind]. rewrite Hp. cbn [bind]. rewrite Hs. cbn [bind].
    rewrite Hg. reflexivity. }
  unfold or_else. repeat split.
  - intros ->. reflexivity.
  - intros ->. reflexivity.
  - intros [-> | [-> | (n & -> & Hz)]]; simpl; try reflexivity.
    rewrite Hz. reflexivity.
  - intros ->. reflexivity.
  - intros ->. reflexivity.
  - intros ->. reflexivity.
Qed.

End WithAdapter.

Lemma analyzeReadme_parsed_witness :
  exists score suggested,
    get (JObject [(units_of "score", JNumber (of_Z 0))]) "score" = Return score /\
    get (JObject [(units_of "score", JNumber (of_Z 0))]) "suggestions"
      = Return suggested /\
    analyzeReadme (answering ("{" ++ dq ++ "score" ++ dq ++ ": 0}"))
      {| aiProvider := Some openai_adapter |} "license"
      = Return {| qualityScore := or_else score (JNumber (of_Z 50));
                  suggestions := or_else suggested (JArray []) |} /\
    (truthy score = true -> or_else score (JNumber (of_Z 50)) = score) /\
    (truthy score = false ->
     or_else score (JNumber (of_Z 50)) = JNumber (of_Z 50)) /\
    (score = JUndefined \/ score = JNull
     \/ (exists n, score = JNumber n /\ is_zero n = true) ->
     truthy score = false) /\
    (truthy suggested = true -> or_else suggested (JArray []) = suggested) /\
    (truthy suggested = false -> or_else suggested (JArray []) = JArray []) /\
    (suggested = JUndefined -> truthy suggested = false).
Proof.
  apply (analyzeReadme_parsed (answering ("{" ++ dq ++ "score" ++ dq ++ ": 0}"))
           openai_adapter "license"
           {| result_text := "{" ++ dq ++ "score" ++ dq ++ ": 0}";
              tokensUsed := None;
              resp_model := None;
              resp_provider := "OpenAI" |}).
  - reflexivity.
  - vm_compute. reflexivity.
  - discriminate.
Defined.

(** C10, as stated, fails when the answer is the JSON text null: it parses,
    the property read throws, and the heuristic score (10 for this README)
    is returned, not 50. *)
Lemma analyzeReadme_null_answer :
  JSON_parse "null" = Return JNull /\
  calculateBasicReadmeScore "license" = 10 /\
  analyzeReadme (answering "null") {| aiProvider := Some openai_adapter |} "license"
    = Return {| qualityScore := JNumber (of_Z 10); suggestions := JArray [] |}.
Proof. vm_compute. repeat split. Qed.

(** ** The README fallback score *)

Section Fallback.

Variable analyze : AIProvider -> AIAnalysisRequest -> result AIAnalysisResponse.

Lemma analyzeReadme_fallback (p : AIProvider) (text : string) :
  falls_back analyze p text ->
  analyzeReadme analyze {| aiProvider := Some p |} text
    = Return {| qualityScore := JNumber (of_Z (calculateBasicReadmeScore text));
                suggestions := JArray [] |}.
Proof.
  cbv beta iota zeta delta
    [analyzeReadme aiProvider falls_back readme_request].
  intros [[e H] | [(response & e & H & P) | (response & H & P)]];
    rewrite H; simpl; [reflexivity | |]; rewrite P; reflexivity.
Qed.

(** When [analyzeReadme] falls back, the README score of the documentation
    analyzer is the one of [calculateBasicReadmeScore]. *)
Lemma readmeQuality_fallback (p : AIProvider) (content : string) :
  content <> "" ->
  falls_back analyze p content ->
  readmeQuality analyze {| aiAnalyzer := Some {| aiProvider := Some p |} |}
    (Some content)
    = Return (JNumber (of_Z (calculateBasicReadmeScore content))).
Proof.
  intros Hc Hf. unfold readmeQuality, usable_ai. simpl.
  apply falsy_string_nonempty in Hc. rewrite Hc. simpl.
  rewrite (analyzeReadme_fallback p content Hf). reflexivity.
Qed.

(** The conditions of [calculateBasicReadmeScore]: two length thresholds and
    six keywords, in any letter case. *)
Lemma calculateBasicReadmeScore_conditions (content : string) :
  exists installation usage example reference contributing license : bool,
    (installation = true <-> mentions "installation" content) /\
    (usage = true <-> mentions "usage" content) /\
    (example = true <-> mentions "example" content) /\
    (reference = true <->
     mentions "api" content \/ mentions "reference" content) /\
    (contributing = true <-> mentions "contributing" content) /\
    (license = true <-> mentions "license" content) /\
    calculateBasicReadmeScore content =
      Z.min 100
        (points [ (len content >? 500, 20);
                  (len content >? 1500, 10);
                  (installation, 15);
                  (usage, 15);
                  (example, 10);
                  (reference, 10);
                  (contributing, 10);
                  (license, 10) ]).
Proof.
  exists (test flag_i re_installation content),
    (test flag_i re_usage content),
    (test flag_i re_example content),
    (test flag_i re_api_reference content),
    (test flag_i re_contributing content),
    (test flag_i re_license content).
  split; [apply test_keyword; reflexivity|].
  split; [apply test_keyword; reflexivity|].
  split; [apply test_keyword; reflexivity|].
  split; [apply test_re_api_reference|].
  split; [apply test_keyword; reflexivity|].
  split; [apply test_keyword; reflexivity|].
  apply calculateBasicReadmeScore_points.
Qed.

(** C2, as amended.  Without a usable adapter the README score is that of
    [calculateReadmeQuality]: 0 when there is no README, and otherwise,
    capped at 100, the points of the listed conditions and of one more, a
    length above 100. *)
Theorem readme_fallback_scores (content : string) :
  (forall self, readmeQuality analyze self None = Return (JNumber (of_Z 0))) /\
  (forall self,
      usable_ai self (Some content) = None ->
      readmeQuality analyze self (Some content)
        = Return (JNumber (of_Z (calculateReadmeQuality (Some content))))) /\
  (exists heading installation usage code link badge : bool,
      (heading = true <-> has_top_level_heading content) /\
      (installation = true <->
       has_section ["installation"; "install"; "setup"] content) /\
      (usage = true <->
       has_section ["usage"; "example"] content
       \/ has_quick_start_section content) /\
      (code = true <-> has_code_block content) /\
      (link = true <-> has_link content) /\
      (badge = true <-> has_badge content) /\
      calculateReadmeQuality (Some content) =
        Z.min 100
          (points [ (len content >=? 200, 10);
                    (len content >=? 500, 10);
                    (heading, 10);
                    (len content >? 100, 10);
                    (installation, 15);
                    (usage, 15);
                    (code, 10);
                    (link, 10);
                    (badge, 10) ])).
Proof.
  split; [|split].
  - intros self. unfold readmeQuality, usable_ai. reflexivity.
  - intros self H. unfold readmeQuality. rewrite H. reflexivity.
  - exists (test flag_m re_title content),
      (test flag_i re_installation_section content),
      (test flag_i re_usage_section content),
      (test no_flags re_code_block content),
      (test no_flags re_link content),
      (test no_flags re_badge content).
    split; [apply test_re_title|].
    split; [apply test_re_installation_section|].
    split; [apply test_re_usage_section|].
    split; [apply test_re_code_block|].
    split; [apply test_re_link|].
    split; [apply test_re_badge|].
    apply calculateReadmeQuality_points.
Qed.

End Fallback.

Lemma readme_fallback_scores_witness :
  readmeQuality failing_vendor {| aiAnalyzer := None |} (Some "# Test README")
    = Return (JNumber (of_Z (calculateReadmeQuality (Some "# Test README")))).
Proof.
  apply (proj1 (proj2 (readme_fallback_scores failing_vendor "# Test README"))).
  reflexivity.
Defined.

(** C2, as stated, fails: these two READMEs agree on every listed
    condition, and their fallback scores differ.  Without an adapter they
    are 0 and 10, the second README being longer than 100; when the call
    fails they are 10, for the keyword, and 0. *)
Lemma fallback_score_not_from_listed_conditions :
  let short := "license" in
  let long := "This project has no documentation yet. Please come back later, when the authors have written the manual pages." in
  listed_conditions short = listed_conditions long /\
  readmeQuality failing_vendor {| aiAnalyzer := None |} (Some short)
    = Return (JNumber (of_Z 0)) /\
  readmeQuality failing_vendor {| aiAnalyzer := None |} (Some long)
    = Return (JNumber (of_Z 10)) /\
  readmeQuality failing_vendor with_ai (Some short) = Return (JNumber (of_Z 10)) /\
  readmeQuality failing_vendor with_ai (Some long) = Return (JNumber (of_Z 0)).
Proof. vm_compute. repeat split. Qed.

(** ** The unit tests of the repository, on the model *)

(** tests/unit/AIProviderFactory.test.ts, [create] *)
Example factory_creates_the_three_adapters :
  (exists p, create (test_config "openai" "test-key") = Return p
             /\ class_of p = OpenAIProvider /\ getProviderName p = "OpenAI") /\
  (exists p, create (test_config "anthropic" "test-key") = Return p
             /\ class_of p = AnthropicProvider /\ getProviderName p = "Anthropic") /\
  (exists p, create (test_config "gemini" "test-key") = Return p
             /\ class_of p = GeminiProvider /\ getProviderName p = "Google Gemini").
Proof. repeat split; eexists; repeat split. Qed.

Example factory_refuses_unknown_provider :
  exists msg,
    create (test_config "unknown" "test-key") = Throw (Error msg) /\
    includes msg "Unknown AI provider: unknown" = true.
Proof. eexists. split; reflexivity. Qed.

Example factory_refuses_missing_key :
  exists msg,
    create (test_config "openai" "") = Throw (Error msg) /\
    includes msg "API key is required" = true.
Proof. eexists. split; reflexivity. Qed.

Example factory_supported_providers :
  getSupportedProviders = ["openai"; "anthropic"; "gemini"].
Proof. reflexivity. Qed.

(** tests/unit/OpenAIProvider.test.ts, [validateCredentials] *)
Example probe_outcomes (p : AIProvider) :
  probe_validateCredentials (fun _ => Resolved true) p = Return true /\
  probe_validateCredentials (fun _ => Resolved false) p = Return false /\
  probe_validateCredentials (fun _ => Rejected (Error "Network error")) p
    = Return false.
Proof. repeat split. Qed.

(** tests/unit/AIAnalyzer.test.ts *)
Example analyzer_availability :
  (exists a, new_AIAnalyzer None = Return a /\ isAIAvailable a = false) /\
  (exists a,
      new_AIAnalyzer
        (Some {| ai_provider := "openai"; ai_apiKey := Some "test-key";
                 ai_model := None; ai_maxTokens := None;
                 ai_temperature := None |}) = Return a
      /\ isAIAvailable a = true).
Proof. split; eexists; split; reflexivity. Qed.

Example roadmap_without_tests_and_ci :
  let now := 1700000000000 in
  let roadmap :=
    generateBasicRoadmap now
      {| technologies := ["javascript"; "node"];
         lastUpdate := Some (now - days 200);
         hasTests := false; hasCICD := false |} in
  (List.length roadmap > 0)%nat /\
  existsb (fun item => includes item "test") roadmap = true /\
  existsb (fun item => includes item "CI/CD") roadmap = true.
Proof. vm_compute. repeat split. lia. Qed.

Example roadmap_of_an_old_project :
  let now := 1700000000000 in
  existsb (fun item => includes item "dependencies")
    (generateBasicRoadmap now
       {| technologies := ["javascript"];
          lastUpdate := Some (now - days 200);
          hasTests := true; hasCICD := true |}) = true.
Proof. reflexivity. Qed.

Example roadmap_of_a_tested_project :
  let now := 1700000000000 in
  existsb (fun item => test flag_i re_immediate_test item)
    (generateBasicRoadmap now (tested_project now)) = false.
Proof. reflexivity. Qed.

(** The README of the skipped fallback test: the two scorers on it. *)
Example readme_of_the_skipped_test :
  let readme := "# Test README" ++ nl ++ nl ++ "Some content here." in
  calculateBasicReadmeScore readme = 0 /\
  calculateReadmeQuality (Some readme) = 10.
Proof. split; reflexivity. Qed.

(** * Further properties *)

(** ** The factory and the environment *)

Lemma class_of_name (name : string) :
  In name getSupportedProviders <-> exists class, name = provider_name class.
Proof.
  unfold getSupportedProviders. simpl. split.
  - intros [<- | [<- | [<- | []]]];
      [exists OpenAIProvider | exists AnthropicProvider | exists GeminiProvider];
      reflexivity.
  - intros ([] & ->); simpl; tauto.
Qed.

Lemma create_by_name (config : AIProviderConfig) (class : provider_class) :
  apiKey config <> "" ->
  toLowerCase (provider config) = provider_name class ->
  create config = Return (new_provider class (apiKey config) (model config)).
Proof.
  intros Hk Hn. rewrite (create_with_key config Hk). cbv zeta. rewrite Hn.
  destruct class; reflexivity.
Qed.

Lemma create_unsupported (config : AIProviderConfig) :
  apiKey config <> "" ->
  ~ In (toLowerCase (provider config)) getSupportedProviders ->
  create config =
    Throw (Error ("Unknown AI provider: " ++ provider config
                  ++ ". Supported providers: openai, anthropic, gemini")).
Proof.
  intros Hk Hn. rewrite (create_with_key config Hk). cbv zeta.
  unfold getSupportedProviders in Hn. simpl in Hn.
  destruct (String.eqb_spec (toLowerCase (provider config)) "openai") as [E|_];
    [rewrite E in Hn; tauto|].
  destruct (String.eqb_spec (toLowerCase (provider config)) "anthropic") as [E|_];
    [rewrite E in Hn; tauto|].
  destruct (String.eqb_spec (toLowerCase (provider config)) "gemini") as [E|_];
    [rewrite E in Hn; tauto|].
  reflexivity.
Qed.

(** X1: With a key, [create] succeeds exactly for the providers that
    [getSupportedProviders] lists, whatever the letter case. *)
Theorem create_succeeds_iff_supported (config : AIProviderConfig) :
  apiKey config <> "" ->
  ((exists p, create config = Return p) <->
   In (toLowerCase (provider config)) getSupportedProviders).
Proof.
  intros Hk. split.
  - intros [p Hp].
    destruct (in_dec string_dec (toLowerCase (provider config))
                getSupportedProviders) as [Hin | Hout]; [exact Hin|].
    rewrite (create_unsupported config Hk Hout) in Hp. discriminate.
  - intros Hin. apply class_of_name in Hin. destruct Hin as [class Hc].
    eexists. apply (create_by_name config class Hk Hc).
Qed.

Lemma create_succeeds_iff_supported_witness :
  (exists p, create (test_config "GEMINI" "test-key") = Return p) <->
  In (toLowerCase "GEMINI") getSupportedProviders.
Proof.
  apply (create_succeeds_iff_supported (test_config "GEMINI" "test-key")).
  discriminate.
Defined.

Lemma when_truthy_nonempty (value : option string) (s : string) :
  when_truthy value = Some s -> value = Some s /\ s <> "".
Proof.
  destruct value as [t|]; simpl; [|discriminate].
  destruct t; simpl; [discriminate|].
  intros E. injection E as <-. split; [reflexivity | discriminate].
Qed.

Section FromEnvironment.

Variable env : string -> option string.
Variable parseInt : string -> option Z.
Variable parseFloat : string -> option Q.

(** The provider name that [createFromEnv] works with. *)
Let name : string := toLowerCase (or_default (env "AI_PROVIDER") "openai").

Lemma provider_name_lower (class : provider_class) :
  toLowerCase (provider_name class) = provider_name class.
Proof. destruct class; reflexivity. Qed.

Lemma createFromEnv_key_lookup (class : provider_class) :
  name = provider_name class ->
  createFromEnv env parseInt parseFloat =
    match when_truthy (env (key_variable class)) with
    | None => Throw (Error ("API key not found for " ++ name ++ " provider"))
    | Some apiKey => Return (new_provider class apiKey (env "AI_MODEL"))
    end.
Proof.
  intros Hn. unfold createFromEnv. cbv zeta. fold name. rewrite Hn.
  assert ((if (provider_name class =? "openai")%string
           then Return (env "OPENAI_API_KEY")
           else if (provider_name class =? "anthropic")%string
                then Return (env "ANTHROPIC_API_KEY")
                else if (provider_name class =? "gemini")%string
                     then Return (env "GEMINI_API_KEY")
                     else Throw (Error ("Unknown AI provider: " ++ provider_name class)))
          = Return (env (key_variable class))) as -> by (destruct class; reflexivity).
  simpl bind.
  destruct (when_truthy (env (key_variable class))) as [key|] eqn:K; [|reflexivity].
  apply when_truthy_nonempty in K. destruct K as [_ Hk].
  apply create_by_name; simpl; [exact Hk | apply provider_name_lower].
Qed.

(** X2: [createFromEnv] looks at the key variable of the selected provider only:
    with a key there it returns the adapter of that provider, holding that
    key and the model of [AI_MODEL], whatever the other keys and the numeric
    overrides are; without one it fails for the missing key.  The provider
    is [openai] when [AI_PROVIDER] is not set or is empty. *)
Theorem createFromEnv_selects (class : provider_class) :
  name = provider_name class ->
  (when_truthy (env "AI_PROVIDER") = None -> class = OpenAIProvider) /\
  (forall key,
      when_truthy (env (key_variable class)) = Some key ->
      createFromEnv env parseInt parseFloat
        = Return (new_provider class key (env "AI_MODEL"))) /\
  (when_truthy (env (key_variable class)) = None ->
   createFromEnv env parseInt parseFloat
     = Throw (Error ("API key not found for " ++ provider_name class
                     ++ " provider"))).
Proof.
  intros Hn. split; [|split].
  - intros Hp. unfold name, or_default in Hn. unfold when_truthy in Hp.
    assert (toLowerCase "openai" = provider_name class) as Ho.
    { destruct (env "AI_PROVIDER") as [s|]; [|exact Hn].
      destruct (falsy_string s); [exact Hn | discriminate]. }
    destruct class; [reflexivity | |]; vm_compute in Ho; discriminate.
  - intros key Hk. rewrite (createFromEnv_key_lookup class Hn), Hk. reflexivity.
  - intros Hk. rewrite (createFromEnv_key_lookup class Hn), Hk, Hn. reflexivity.
Qed.

(** X3: [createFromEnv] fails in two ways only, each with its own message: the
    provider is none of the supported ones, or the key variable of the
    provider is not set or is empty.  The two errors of [create] never come
    out of it. *)
Theorem createFromEnv_failures (e : exn) :
  createFromEnv env parseInt parseFloat = Throw e <->
  (~ In name getSupportedProviders /\
   e = Error ("Unknown AI provider: " ++ name)) \/
  (exists class,
      name = provider_name class /\
      when_truthy (env (key_variable class)) = None /\
      e = Error ("API key not found for " ++ name ++ " provider")).
Proof.
  destruct (in_dec string_dec name getSupportedProviders) as [Hin | Hout].
  - destruct (proj1 (class_of_name name) Hin) as [class Hc].
    rewrite (createFromEnv_key_lookup class Hc).
    destruct (when_truthy (env (key_variable class))) as [key|] eqn:K.
    + split; [discriminate|].
      intros [[Hn _] | (class' & Hc' & K' & _)]; [contradiction|].
      assert (class' = class) as ->
          by (rewrite Hc in Hc'; destruct class, class'; simpl in Hc';
              congruence).
      congruence.
    + split.
      * intros E. injection E as <-. right. exists class. auto.
      * intros [[Hn _] | (class' & _ & _ & ->)]; [contradiction | reflexivity].
  - assert (createFromEnv env parseInt parseFloat
            = Throw (Error ("Unknown AI provider: " ++ name))) as ->.
    { unfold createFromEnv. cbv zeta. fold name.
      unfold getSupportedProviders in Hout. simpl in Hout.
      destruct (String.eqb_spec name "openai") as [E|_]; [rewrite E in Hout; tauto|].
      destruct (String.eqb_spec name "anthropic") as [E|_];
        [rewrite E in Hout; tauto|].
      destruct (String.eqb_spec name "gemini") as [E|_]; [rewrite E in Hout; tauto|].
      reflexivity. }
    split.
    + intros E. injection E as <-. left. auto.
    + intros [[_ ->] | (class & Hc & _)]; [reflexivity|].
      contradiction Hout. apply class_of_name. eauto.
Qed.

End FromEnvironment.

Lemma createFromEnv_selects_witness :
  createFromEnv sample_env (no_number Z) (no_number Q)
    = Return (new_provider AnthropicProvider "test-anthropic-key" None).
Proof.
  apply (proj1 (proj2 (createFromEnv_selects sample_env (no_number Z)
                         (no_number Q) AnthropicProvider eq_refl))).
  reflexivity.
Defined.

(** ** The analyzer with an adapter *)

Lemma try_catch_returns {A : Type} (body : result A) (handler : exn -> result A) :
  (forall e, exists a, handler e = Return a) ->
  exists a, try_catch body handler = Return a.
Proof.
  intros H. destruct body as [a|e]; simpl; [eauto | apply H].
Qed.

Lemma slice0_length (n : nat) (text : string) :
  (String.length (slice0 n text) <= n)%nat.
Proof.
  unfold slice0. revert text. induction n as [|n IH]; intros [|a text]; simpl;
    try lia.
  specialize (IH text). lia.
Qed.

Lemma slice0_idempotent (n : nat) (text : string) :
  slice0 n (slice0 n text) = slice0 n text.
Proof.
  unfold slice0. revert text. induction n as [|n IH]; intros [|a text]; simpl;
    try reflexivity.
  rewrite IH. reflexivity.
Qed.

Lemma firstn_truncated (n : nat) (files : list SourceFile) :
  map (fun f => "// " ++ path f ++ nl ++ slice0 500 (file_content f))
    (firstn n (map truncated (firstn n files)))
  = map (fun f => "// " ++ path f ++ nl ++ slice0 500 (file_content f))
      (firstn n files).
Proof.
  rewrite firstn_map, firstn_firstn, Nat.min_id, map_map.
  apply map_ext. intros f. unfold truncated. simpl.
  rewrite slice0_idempotent. reflexivity.
Qed.

Section Configured.

Variable analyze : AIProvider -> AIAnalysisRequest -> result AIAnalysisResponse.
Variable now : Z.
Variable stringify : RoadmapContext -> string.

(** X4: With an adapter no operation throws, whatever the adapter does: a
    failed call, an answer that is no JSON and an answer of the wrong shape
    all end in a returned result. *)
Theorem configured_operations_return (self : AIAnalyzer) (p : AIProvider) :
  aiProvider self = Some p ->
  (forall readmeContent, exists r,
      analyzeReadme analyze self readmeContent = Return r) /\
  (forall files, exists r,
      analyzeCodeQuality analyze self files = Return r) /\
  (forall codeSnippets, exists v,
      analyzeSecurityConcerns analyze self codeSnippets = Return v) /\
  (forall context, exists v,
      generateModernizationRoadmap analyze now stringify self context = Return v).
Proof.
  intros H.
  unfold analyzeReadme, analyzeCodeQuality, analyzeSecurityConcerns,
    generateModernizationRoadmap.
  rewrite H. repeat split; intros; cbv zeta;
    apply try_catch_returns; intros e; eexists; reflexivity.
Qed.

(** The request of the roadmap operation. *)
Let roadmap_request (context : RoadmapContext) : AIAnalysisRequest :=
  {| content := stringify context;
     prompt := roadmap_prompt (stringify context);
     req_maxTokens := Some 600;
     req_temperature := Some (6 # 10)%Q |}.

(** X5: The security scan and the roadmap operation always return an array,
    with or without an adapter.  The roadmap is empty only when the adapter
    answered with the empty array. *)
Theorem list_operations_return_arrays (self : AIAnalyzer) :
  (forall codeSnippets, exists items,
      analyzeSecurityConcerns analyze self codeSnippets = Return (JArray items)) /\
  (forall context, exists items,
      generateModernizationRoadmap analyze now stringify self context
        = Return (JArray items) /\
      (items = [] ->
       exists p response,
         aiProvider self = Some p /\
         analyze p (roadmap_request context) = Return response /\
         JSON_parse (result_text response) = Return (JArray []))).
Proof.
  assert (forall context, exists item items,
             of_strings (generateBasicRoadmap now context)
             = JArray (item :: items)) as Hbasic.
  { intros context. unfold of_strings.
    pose proof (generateBasicRoadmap_not_empty now context) as Hne.
    destruct (generateBasicRoadmap now context) as [|item items];
      [contradiction Hne; reflexivity|].
    simpl. eauto. }
  split.
  - intros codeSnippets. unfold analyzeSecurityConcerns.
    destruct (aiProvider self) as [p|]; [|eauto]. cbv zeta.
    destruct (analyze p _) as [response|e]; simpl; [|eauto].
    destruct (JSON_parse (result_text response)) as [concerns|e]; simpl; [|eauto].
    destruct concerns; simpl; eauto.
  - intros context. unfold generateModernizationRoadmap.
    destruct (Hbasic context) as (item & items & Hb).
    destruct (aiProvider self) as [p|].
    + cbv zeta. fold (roadmap_request context).
      destruct (analyze p (roadmap_request context)) as [response|e] eqn:A; simpl.
      * destruct (JSON_parse (result_text response)) as [roadmap|e] eqn:P; simpl.
        -- destruct roadmap; simpl; rewrite ?Hb;
             try (eexists; split; [reflexivity | discriminate]).
           eexists. split; [reflexivity|]. intros ->. eauto.
        -- rewrite Hb. eexists. split; [reflexivity | discriminate].
      * rewrite Hb. eexists. split; [reflexivity | discriminate].
    + rewrite Hb. eexists. split; [reflexivity | discriminate].
Qed.

(** X6: The code-quality operation shows the adapter the first five files only
    and the first 500 characters of each; the security scan the first three
    snippets only. *)
Theorem snapshots_are_bounded (self : AIAnalyzer) :
  (forall files,
      analyzeCodeQuality analyze self files
        = analyzeCodeQuality analyze self (map truncated (firstn 5 files))) /\
  (forall files,
      (List.length (map truncated (firstn 5 files)) <= 5)%nat /\
      Forall (fun f => (String.length (file_content f) <= 500)%nat)
        (map truncated (firstn 5 files))) /\
  (forall codeSnippets,
      analyzeSecurityConcerns analyze self codeSnippets
        = analyzeSecurityConcerns analyze self (firstn 3 codeSnippets)).
Proof.
  split; [|split].
  - intros files. unfold analyzeCodeQuality.
    destruct (aiProvider self) as [p|]; [|reflexivity].
    cbv zeta. rewrite firstn_truncated. reflexivity.
  - intros files. split.
    + rewrite length_map, length_firstn. lia.
    + apply Forall_forall. intros f Hf. apply in_map_iff in Hf.
      destruct Hf as (g & <- & _). apply slice0_length.
  - intros codeSnippets. unfold analyzeSecurityConcerns.
    destruct (aiProvider self) as [p|]; [|reflexivity].
    cbv zeta. rewrite firstn_firstn, Nat.min_id. reflexivity.
Qed.

End Configured.

Lemma configured_operations_return_witness :
  (forall readmeContent, exists r,
      analyzeReadme failing_vendor {| aiProvider := Some openai_adapter |}
        readmeContent = Return r) /\
  (forall files, exists r,
      analyzeCodeQuality failing_vendor {| aiProvider := Some openai_adapter |}
        files = Return r) /\
  (forall codeSnippets, exists v,
      analyzeSecurityConcerns failing_vendor
        {| aiProvider := Some openai_adapter |} codeSnippets = Return v) /\
  (forall context, exists v,
      generateModernizationRoadmap failing_vendor 0 plain_stringify
        {| aiProvider := Some openai_adapter |} context = Return v).
Proof.
  apply (configured_operations_return failing_vendor 0 plain_stringify
           {| aiProvider := Some openai_adapter |} openai_adapter).
  reflexivity.
Defined.

(** ** The constructors *)

Lemma configured_key_nonempty (aiConfig : option AIConfig) cfg key :
  configured_key aiConfig = Some (cfg, key) -> key <> "".
Proof.
  unfold configured_key.
  destruct aiConfig as [c|]; [|discriminate].
  destruct (ai_apiKey c) as [k|]; [|discriminate].
  destruct k; simpl; [discriminate|].
  intros E. injection E as _ <-. discriminate.
Qed.

Lemma new_AIAnalyzer_with_key (aiConfig : option AIConfig) cfg key :
  configured_key aiConfig = Some (cfg, key) ->
  (forall class,
      toLowerCase (ai_provider cfg) = provider_name class ->
      new_AIAnalyzer aiConfig
        = Return {| aiProvider := Some (new_provider class key (ai_model cfg)) |}) /\
  (~ In (toLowerCase (ai_provider cfg)) getSupportedProviders ->
   new_AIAnalyzer aiConfig =
     Throw (Error ("Unknown AI provider: " ++ ai_provider cfg
                   ++ ". Supported providers: openai, anthropic, gemini"))).
Proof.
  intros Hc. pose proof (configured_key_nonempty _ _ _ Hc) as Hk.
  unfold new_AIAnalyzer. rewrite Hc. split.
  - intros class Hn.
    rewrite (create_by_name _ class); [reflexivity | exact Hk | exact Hn].
  - intros Hout. rewrite create_unsupported; [reflexivity | exact Hk | exact Hout].
Qed.

(** X9: [new AIAnalyzer(aiConfig)] throws only when a key comes with a provider
    that is not supported, and then with the error of [create] for an
    unknown provider.  Otherwise the analyzer has an adapter exactly when a
    key was given, and the adapter holds that key and the model of the
    configuration. *)
Theorem new_AIAnalyzer_outcomes (aiConfig : option AIConfig) :
  (configured_key aiConfig = None ->
   new_AIAnalyzer aiConfig = Return {| aiProvider := None |}) /\
  (forall cfg key,
      configured_key aiConfig = Some (cfg, key) ->
      (In (toLowerCase (ai_provider cfg)) getSupportedProviders ->
       exists p,
         new_AIAnalyzer aiConfig = Return {| aiProvider := Some p |} /\
         key_of p = key /\ model_of p = ai_model cfg) /\
      (~ In (toLowerCase (ai_provider cfg)) getSupportedProviders ->
       new_AIAnalyzer aiConfig =
         Throw (Error ("Unknown AI provider: " ++ ai_provider cfg
                       ++ ". Supported providers: openai, anthropic, gemini")))).
Proof.
  split.
  - apply new_AIAnalyzer_no_key.
  - intros cfg key Hc.
    destruct (new_AIAnalyzer_with_key aiConfig cfg key Hc) as [Hin Hout].
    split; [|exact Hout].
    intros Hi. apply class_of_name in Hi. destruct Hi as [class Hn].
    eexists. split; [apply (Hin class Hn)|]. split; reflexivity.
Qed.

Lemma new_AIAnalyzer_outcomes_witness :
  (exists p,
      new_AIAnalyzer (Some (keyed_config "OpenAI"))
        = Return {| aiProvider := Some p |} /\
      key_of p = "test-key" /\ model_of p = Some "gpt-4") /\
  new_AIAnalyzer (Some (keyed_config "unknown")) =
    Throw (Error "Unknown AI provider: unknown. Supported providers: openai, anthropic, gemini").
Proof.
  split.
  - apply (proj1 (proj2 (new_AIAnalyzer_outcomes (Some (keyed_config "OpenAI")))
                    (keyed_config "OpenAI") "test-key" eq_refl)).
    vm_compute. tauto.
  - apply (proj2 (proj2 (new_AIAnalyzer_outcomes (Some (keyed_config "unknown")))
                    (keyed_config "unknown") "test-key" eq_refl)).
    vm_compute. intros [H | [H | [H | []]]]; discriminate H.
Defined.

(** X10: [new DocumentationAnalyzer(client, aiConfig)] fails exactly when
    [new AIAnalyzer(aiConfig)] does, with the same error; an analyzer that
    it holds always has an adapter, and it holds one exactly when a key was
    given. *)
Theorem new_DocumentationAnalyzer_outcomes (aiConfig : option AIConfig) :
  (forall e,
      new_DocumentationAnalyzer aiConfig = Throw e <->
      new_AIAnalyzer aiConfig = Throw e) /\
  (forall self,
      new_DocumentationAnalyzer aiConfig = Return self ->
      (forall a, aiAnalyzer self = Some a -> isAIAvailable a = true) /\
      (aiAnalyzer self = None <-> configured_key aiConfig = None)).
Proof.
  unfold new_DocumentationAnalyzer.
  destruct (configured_key aiConfig) as [[cfg key]|] eqn:Hc.
  - destruct (new_AIAnalyzer_with_key aiConfig cfg key Hc) as [Hin Hout].
    destruct (in_dec string_dec (toLowerCase (ai_provider cfg))
                getSupportedProviders) as [Hi | Ho].
    + apply class_of_name in Hi. destruct Hi as [class Hn].
      rewrite (Hin class Hn). simpl. split.
      * intros e. split; discriminate.
      * intros self E. injection E as <-. simpl. split.
        -- intros a E. injection E as <-. reflexivity.
        -- split; discriminate.
    + rewrite (Hout Ho). simpl. split.
      * intros e. split; intros E; injection E as <-; reflexivity.
      * intros self E. discriminate.
  - rewrite (new_AIAnalyzer_no_key aiConfig Hc). split.
    + intros e. split; discriminate.
    + intros self E. injection E as <-. simpl. split.
      * intros a E. discriminate.
      * split; reflexivity.
Qed.

Lemma new_DocumentationAnalyzer_outcomes_witness :
  isAIAvailable
    {| aiProvider := Some (new_provider OpenAIProvider "test-key" (Some "gpt-4")) |}
    = true /\
  new_DocumentationAnalyzer (Some (keyed_config "unknown")) =
    Throw (Error "Unknown AI provider: unknown. Supported providers: openai, anthropic, gemini").
Proof.
  split.
  - apply (proj1 (proj2 (new_DocumentationAnalyzer_outcomes
                           (Some (keyed_config "OpenAI")))
                    {| aiAnalyzer :=
                         Some {| aiProvider :=
                                   Some (new_provider OpenAIProvider "test-key"
                                           (Some "gpt-4")) |} |}
                    eq_refl)).
    reflexivity.
  - apply (proj1 (new_DocumentationAnalyzer_outcomes
                    (Some (keyed_config "unknown")))).
    reflexivity.
Defined.

(** ** The documentation analyzer *)

Section DocumentationChecks.

Variable analyze : AIProvider -> AIAnalysisRequest -> result AIAnalysisResponse.
Variable hasFile : string -> string -> string -> result bool.
Variable getFileContent : string -> string -> string -> result (option string).

Lemma any_file_stops (owner repo : string) (paths : list string) :
  stops_at_first hasFile owner repo paths (any_file hasFile owner repo paths).
Proof.
  unfold stops_at_first, first_hit, first_failure.
  induction paths as [|path paths (IHt & IHf & IHe)]; simpl.
  - split; [|split].
    + split; [discriminate|]. intros ([|] & ? & ? & E & _); discriminate.
    + split; constructor.
    + intros e. split; [discriminate|].
      intros ([|] & ? & ? & E & _); discriminate.
  - destruct (hasFile owner repo path) as [[|]|e0] eqn:H; simpl.
    + split; [|split].
      * split; [|reflexivity]. intros _. exists [], path, paths.
        repeat split; [constructor | exact H].
      * split; [discriminate|]. intros F. inversion F; congruence.
      * intros e. split; [discriminate|].
        intros ([|q before] & p & after & E & F & Hp); simpl in E;
          injection E as -> _; [congruence|].
        inversion F; congruence.
    + split; [|split].
      * rewrite IHt. split.
        -- intros (before & p & after & -> & F & Hp).
           exists (path :: before), p, after. repeat split; [|exact Hp].
           constructor; assumption.
        -- intros ([|q before] & p & after & E & F & Hp); simpl in E;
             injection E as -> ->; [congruence|].
           inversion F; subst. exists before, p, after. auto.
      * rewrite IHf. split.
        -- intros F. constructor; assumption.
        -- intros F. inversion F; assumption.
      * intros e. rewrite IHe. split.
        -- intros (before & p & after & -> & F & Hp).
           exists (path :: before), p, after. repeat split; [|exact Hp].
           constructor; assumption.
        -- intros ([|q before] & p & after & E & F & Hp); simpl in E;
             injection E as -> ->; [congruence|].
           inversion F; subst. exists before, p, after. auto.
    + split; [|split].
      * split; [discriminate|].
        intros ([|q before] & p & after & E & F & Hp); simpl in E;
          injection E as -> _; [congruence|].
        inversion F; congruence.
      * split; [discriminate|]. intros F. inversion F; congruence.
      * intros e. split.
        -- intros E. injection E as <-. exists [], path, paths.
           repeat split; [constructor | exact H].
        -- intros ([|q before] & p & after & E & F & Hp); simpl in E;
             injection E as -> _; [congruence|].
           inversion F; congruence.
Qed.

(** X13: The checks for a license, a changelog and API documentation try their
    paths in order and stop at the first that is there: the answer is
    [true] then, even if the check of a later path would fail.  The answer
    is [false] when no path is there, and a failure is the failure of the
    first check that fails. *)
Theorem file_checks_stop_at_first (owner repo : string) :
  stops_at_first hasFile owner repo
    ["LICENSE"; "LICENSE.md"; "LICENSE.txt"; "COPYING"]
    (hasLicense hasFile owner repo) /\
  stops_at_first hasFile owner repo
    ["CHANGELOG.md"; "CHANGELOG"; "HISTORY.md"; "RELEASES.md"]
    (hasChangelog hasFile owner repo) /\
  stops_at_first hasFile owner repo
    ["docs/"; "documentation/"; "API.md"; "docs/api/"]
    (hasApiDocs hasFile owner repo).
Proof.
  split; [|split]; apply any_file_stops.
Qed.

Lemma readmeQuality_returns (self : DocumentationAnalyzer)
    (readmeContent : option string) :
  exists v, readmeQuality analyze self readmeContent = Return v.
Proof.
  unfold readmeQuality.
  destruct (usable_ai self readmeContent) as [[a text]|]; [|eauto].
  apply try_catch_returns. intros e. eauto.
Qed.

Lemma any_file_returns (owner repo : string) (paths : list string) :
  (forall path, exists found, hasFile owner repo path = Return found) ->
  exists found, any_file hasFile owner repo paths = Return found.
Proof.
  intros H. induction paths as [|path paths IH]; simpl; [eauto|].
  destruct (H path) as [[|] ->]; simpl; eauto.
Qed.

(** X12: When the calls to GitHub succeed, the documentation analysis returns
    its metrics, whatever the adapter does: no failure of the AI reaches the
    caller.  Without a usable adapter the README quality in them is a
    number from 0 to 100. *)
Theorem documentation_analysis_returns
    (self : DocumentationAnalyzer) (owner repo : string)
    (readmeContent : option string) :
  (forall path, exists found, hasFile owner repo path = Return found) ->
  getFileContent owner repo "README.md" = Return readmeContent ->
  exists metrics,
    DocumentationAnalyzer_analyze analyze hasFile getFileContent self owner repo
      = Return metrics /\
    hasFile owner repo "README.md" = Return (metric_hasReadme metrics) /\
    readmeQuality analyze self readmeContent
      = Return (metric_readmeQuality metrics) /\
    (usable_ai self readmeContent = None ->
     exists quality,
       metric_readmeQuality metrics = JNumber (of_Z quality) /\
       0 <= quality <= 100).
Proof.
  intros Hf Hc.
  destruct (Hf "README.md") as [hasReadme Hr].
  destruct (readmeQuality_returns self readmeContent) as [quality Hq].
  destruct (Hf "CONTRIBUTING.md") as [hasContributing Hg].
  destruct (any_file_returns owner repo
              ["LICENSE"; "LICENSE.md"; "LICENSE.txt"; "COPYING"] Hf) as [l Hl].
  destruct (any_file_returns owner repo
              ["CHANGELOG.md"; "CHANGELOG"; "HISTORY.md"; "RELEASES.md"] Hf)
    as [c Hch].
  destruct (any_file_returns owner repo
              ["docs/"; "documentation/"; "API.md"; "docs/api/"] Hf) as [d Hd].
  unfold DocumentationAnalyzer_analyze, hasLicense, hasChangelog, hasApiDocs.
  cbv zeta.
  rewrite Hr. cbn [bind]. rewrite Hc. cbn [bind]. rewrite Hq. cbn [bind].
  rewrite Hg. cbn [bind]. rewrite Hl. cbn [bind]. rewrite Hch. cbn [bind].
  rewrite Hd. cbn [bind].
  eexists. split; [reflexivity|]. cbn [metric_hasReadme metric_readmeQuality].
  split; [reflexivity|]. split; [reflexivity|].
  intros Hu. unfold readmeQuality in Hq. rewrite Hu in Hq.
  injection Hq as <-. eexists. split; [reflexivity|].
  apply calculateReadmeQuality_bounds.
Qed.

End DocumentationChecks.

Lemma documentation_analysis_returns_witness :
  exists metrics,
    DocumentationAnalyzer_analyze failing_vendor sample_hasFile
      sample_getFileContent with_ai "owner" "repo" = Return metrics /\
    sample_hasFile "owner" "repo" "README.md"
      = Return (metric_hasReadme metrics) /\
    readmeQuality failing_vendor with_ai (Some "# Sample")
      = Return (metric_readmeQuality metrics) /\
    (usable_ai with_ai (Some "# Sample") = None ->
     exists quality,
       metric_readmeQuality metrics = JNumber (of_Z quality) /\
       0 <= quality <= 100).
Proof.
  apply (documentation_analysis_returns failing_vendor sample_hasFile
           sample_getFileContent with_ai "owner" "repo" (Some "# Sample")).
  - intros path. eexists. reflexivity.
  - reflexivity.
Defined.

(** ** The type guards *)

Lemma and_then_true (a b : result bool) :
  and_then a b = Return true <-> a = Return true /\ b = Return true.
Proof.
  unfold and_then. destruct a as [[|]|e]; simpl; split;
    try discriminate; try tauto; intros [H _]; discriminate.
Qed.

(** X21: The guards for the errors of OpenAI and of Anthropic are the same test,
    and the test never throws.  They hold exactly of an object with a
    member [error] whose value is an object, an array or [null]: so a value
    that passes may still have no message to read. *)
Theorem error_guards (data : jsval) :
  isAnthropicError data = isOpenAIError data /\
  (exists holds, isOpenAIError data = Return holds) /\
  (isOpenAIError data = Return true <->
   exists members error,
     data = JObject members /\
     has_property "error" data = Return true /\
     get data "error" = Return error /\
     typeof_object error = true).
Proof.
  split; [reflexivity|]. split.
  - unfold isOpenAIError, and_then.
    destruct data; simpl; eauto.
    destruct (existsb _ members); simpl; eauto.
  - unfold isOpenAIError. rewrite !and_then_true. split.
    + intros (T & N & P & G).
      destruct data; simpl in *; try discriminate.
      exists members, (own_property (units_of "error") members).
      repeat split; try assumption. injection G. trivial.
    + intros (members & error & -> & P & G & T). simpl in *.
      repeat split; try assumption. injection G as <-. rewrite T. reflexivity.
Qed.

(** X22: The guard for the errors of Gemini throws when the member [error] is
    [null], and only then; when it holds, the guard of OpenAI holds too and
    the member is an object with a member [code]. *)
Theorem gemini_guard (data : jsval) :
  (isGeminiError data = Throw TypeError <->
   isOpenAIError data = Return true /\ get data "error" = Return JNull) /\
  (forall e, isGeminiError data = Throw e -> e = TypeError) /\
  (isGeminiError data = Return true ->
   isOpenAIError data = Return true /\
   exists members, get data "error" = Return (JObject members) /\
                   has_property "code" (JObject members) = Return true).
Proof.
  unfold isGeminiError, isOpenAIError, and_then.
  destruct data; simpl;
    try (split; [split; [discriminate | intros [H _]; discriminate]|];
         split; [intros e H; discriminate | discriminate]).
  destruct (existsb _ members); simpl;
    [|split; [split; [discriminate | intros [H _]; discriminate]|];
      split; [intros e H; discriminate | discriminate]].
  destruct (own_property (units_of "error") members) as [| |b|n|u|items|fields];
    simpl.
  - split; [split; [discriminate | intros [H _]; discriminate]|].
    split; [intros e H; discriminate | discriminate].
  - split; [split; [intros _; split; reflexivity | reflexivity]|].
    split; [intros e H; injection H as <-; reflexivity | discriminate].
  - split; [split; [discriminate | intros [H _]; discriminate]|].
    split; [intros e H; discriminate | discriminate].
  - split; [split; [discriminate | intros [H _]; discriminate]|].
    split; [intros e H; discriminate | discriminate].
  - split; [split; [discriminate | intros [H _]; discriminate]|].
    split; [intros e H; discriminate | discriminate].
  - split; [split; [discriminate | intros [_ H]; discriminate]|].
    split; [intros e H; discriminate | discriminate].
  - split; [split; [discriminate | intros [_ H]; discriminate]|].
    split; [intros e H; discriminate|].
    intros H. split; [reflexivity|]. exists fields. split; [reflexivity | exact H].
Qed.

(** ** The scorers *)

Lemma points_le_total (table : list (bool * Z)) :
  Forall (fun entry => 0 <= snd entry) table ->
  0 <= points table <= fold_right (fun entry total => snd entry + total) 0 table.
Proof.
  intros F. apply points_nonneg_le; [exact F | lia].
Qed.

(** X14: The cap of [calculateReadmeQuality] is never reached from above: the
    points of all its conditions add up to 100, so the score is their plain
    sum; and it is 100 exactly when the README has at least 500 characters
    and every other condition holds. *)
Theorem readme_quality_is_the_sum (content : string) :
  let conditions :=
    [ (len content >=? 200, 10);
      (len content >=? 500, 10);
      (test flag_m re_title content, 10);
      (len content >? 100, 10);
      (test flag_i re_installation_section content, 15);
      (test flag_i re_usage_section content, 15);
      (test no_flags re_code_block content, 10);
      (test no_flags re_link content, 10);
      (test no_flags re_badge content, 10) ] in
  calculateReadmeQuality (Some content) = points conditions /\
  (calculateReadmeQuality (Some content) = 100 <->
   500 <= len content /\
   has_top_level_heading content /\
   has_section ["installation"; "install"; "setup"] content /\
   (has_section ["usage"; "example"] content \/ has_quick_start_section content) /\
   has_code_block content /\ has_link content /\ has_badge content).
Proof.
  cbv zeta. rewrite calculateReadmeQuality_points.
  rewrite <- test_re_title, <- test_re_installation_section,
    <- test_re_usage_section, <- test_re_code_block, <- test_re_link,
    <- test_re_badge.
  unfold points.
  destruct (Z.geb_spec (len content) 200), (Z.geb_spec (len content) 500),
    (Z.gtb_spec (len content) 100),
    (test flag_m re_title content),
    (test flag_i re_installation_section content),
    (test flag_i re_usage_section content),
    (test no_flags re_code_block content),
    (test no_flags re_link content),
    (test no_flags re_badge content);
    (split; [reflexivity|]);
    (split; [intros Hsum; try discriminate Hsum; try lia; repeat split; lia
            | intros (? & ? & ? & ? & ? & ? & ?); try discriminate; try lia;
              reflexivity]).
Qed.

(** X15: The same for [calculateBasicReadmeScore]: its score is the plain sum of
    its points, and is 100 exactly when the README has more than 1500
    characters and mentions every keyword. *)
Theorem basic_score_is_the_sum (content : string) :
  let conditions :=
    [ (len content >? 500, 20);
      (len content >? 1500, 10);
      (test flag_i re_installation content, 15);
      (test flag_i re_usage content, 15);
      (test flag_i re_example content, 10);
      (test flag_i re_api_reference content, 10);
      (test flag_i re_contributing content, 10);
      (test flag_i re_license content, 10) ] in
  calculateBasicReadmeScore content = points conditions /\
  (calculateBasicReadmeScore content = 100 <->
   1500 < len content /\
   mentions "installation" content /\ mentions "usage" content /\
   mentions "example" content /\
   (mentions "api" content \/ mentions "reference" content) /\
   mentions "contributing" content /\ mentions "license" content).
Proof.
  cbv zeta. rewrite calculateBasicReadmeScore_points.
  rewrite <- (test_keyword "installation" content eq_refl),
    <- (test_keyword "usage" content eq_refl),
    <- (test_keyword "example" content eq_refl),
    <- test_re_api_reference,
    <- (test_keyword "contributing" content eq_refl),
    <- (test_keyword "license" content eq_refl).
  change (Str "installation") with re_installation.
  change (Str "usage") with re_usage.
  change (Str "example") with re_example.
  change (Str "contributing") with re_contributing.
  change (Str "license") with re_license.
  unfold points.
  destruct (Z.gtb_spec (len content) 500), (Z.gtb_spec (len content) 1500),
    (test flag_i re_installation content),
    (test flag_i re_usage content),
    (test flag_i re_example content),
    (test flag_i re_api_reference content),
    (test flag_i re_contributing content),
    (test flag_i re_license content);
    (split; [reflexivity|]);
    (split; [intros Hsum; try discriminate Hsum; try lia; repeat split; lia
            | intros (? & ? & ? & ? & ? & ? & ?); try discriminate; try lia;
              reflexivity]).
Qed.

Lemma points_grows (table1 table2 : list (bool * Z)) :
  grows table1 table2 -> points table1 <= points table2.
Proof.
  induction 1 as [|[b1 v1] [b2 v2] t1 t2 (Hv & Hp & Hb) _ IH]; simpl in *.
  - lia.
  - subst v2. destruct b1.
    + rewrite (Hb eq_refl). lia.
    + destruct b2; lia.
Qed.

Lemma test_append (fl : flags) (r : regex) (s t : string) :
  test fl r s = true -> test fl r (s ++ t) = true.
Proof.
  rewrite !test_accepts. intros (before & m & rest & -> & A).
  exists before, m, (rest ++ t). split; [|exact A].
  rewrite !append_assoc. reflexivity.
Qed.

Lemma len_append (s t : string) : len (s ++ t) = len s + len t.
Proof. unfold len. rewrite length_append. lia. Qed.

Lemma len_nonneg (s : string) : 0 <= len s.
Proof. unfold len. lia. Qed.

Lemma geb_grows (a b bound : Z) : a <= b -> (a >=? bound) = true -> (b >=? bound) = true.
Proof. intros H. rewrite !Z.geb_le. lia. Qed.

Lemma gtb_grows (a b bound : Z) : a <= b -> (a >? bound) = true -> (b >? bound) = true.
Proof. intros H. rewrite !Z.gtb_lt. lia. Qed.

(** X16: Text added at the end of a README never lowers its score, with either
    scorer. *)
Theorem appending_never_lowers_the_score (content more : string) :
  calculateReadmeQuality (Some content)
    <= calculateReadmeQuality (Some (content ++ more)) /\
  calculateBasicReadmeScore content
    <= calculateBasicReadmeScore (content ++ more).
Proof.
  assert (len content <= len (content ++ more)) as Hl
      by (rewrite len_append; pose proof (len_nonneg more); lia).
  split.
  - rewrite !calculateReadmeQuality_points.
    apply Z.min_le_compat_l, points_grows.
    repeat constructor; simpl; try lia;
      try (apply geb_grows; exact Hl); try (apply gtb_grows; exact Hl);
      apply test_append.
  - rewrite !calculateBasicReadmeScore_points.
    apply Z.min_le_compat_l, points_grows.
    repeat constructor; simpl; try lia;
      try (apply gtb_grows; exact Hl); apply test_append.
Qed.

(** X17: An image with a text and a target counts twice in
    [calculateReadmeQuality]: as a badge and as a hyperlink. *)
Theorem image_counts_as_badge_and_link (before text target rest : string) :
  text <> "" -> one_line text -> target <> "" -> one_line target ->
  let content := before ++ "![" ++ text ++ "](" ++ target ++ ")" ++ rest in
  test no_flags re_badge content = true /\
  test no_flags re_link content = true.
Proof.
  intros T1 T2 G1 G2. cbv zeta. split.
  - apply test_re_badge. exists before, text, target, rest. auto.
  - apply test_re_link. exists (before ++ "!"), text, target, rest.
    split; [|auto]. rewrite !append_assoc. reflexivity.
Qed.

Lemma image_counts_as_badge_and_link_witness :
  test no_flags re_badge "See ![build](https://ci/badge.svg) here" = true /\
  test no_flags re_link "See ![build](https://ci/badge.svg) here" = true.
Proof.
  apply (image_counts_as_badge_and_link "See " "build" "https://ci/badge.svg"
           " here"); (discriminate || reflexivity).
Defined.

(** *** Letter case *)

Lemma canonicalize_lower_unit (a : ascii) :
  canonicalize (lower_unit a) = canonicalize a.
Proof.
  assert (forallb (fun a => (canonicalize (lower_unit a) =? canonicalize a)%N)
            all_ascii = true) as H by (vm_compute; reflexivity).
  apply N.eqb_eq. exact (forall_ascii _ H a).
Qed.

Lemma is_space_lower_unit (a : ascii) : is_space (lower_unit a) = is_space a.
Proof.
  assert (forallb (fun a => Bool.eqb (is_space (lower_unit a)) (is_space a))
            all_ascii = true) as H by (vm_compute; reflexivity).
  apply Bool.eqb_prop. exact (forall_ascii _ H a).
Qed.

Lemma is_line_terminator_lower_unit (a : ascii) :
  is_line_terminator (lower_unit a) = is_line_terminator a.
Proof.
  assert (forallb (fun a => Bool.eqb (is_line_terminator (lower_unit a))
                              (is_line_terminator a))
            all_ascii = true) as H by (vm_compute; reflexivity).
  apply Bool.eqb_prop. exact (forall_ascii _ H a).
Qed.

Lemma unit_in_lower_unit (cs : charset) (a : ascii) :
  unit_in flag_i cs (lower_unit a) = unit_in flag_i cs a.
Proof.
  induction cs as [c| | | |c1 IH1 c2 IH2]; simpl.
  - rewrite canonicalize_lower_unit. reflexivity.
  - apply is_space_lower_unit.
  - rewrite is_space_lower_unit. reflexivity.
  - rewrite is_line_terminator_lower_unit. reflexivity.
  - rewrite IH1, IH2. reflexivity.
Qed.

Lemma at_line_start_lower (prev : option ascii) :
  at_line_start flag_i (lower_prev prev) = at_line_start flag_i prev.
Proof. destruct prev; reflexivity. Qed.

Lemma length_toLowerCase (s : string) :
  String.length (toLowerCase s) = String.length s.
Proof. induction s as [|a s IH]; simpl; [reflexivity | now rewrite IH]. Qed.

Lemma star_loop_lower
    (step step' : option ascii -> string -> (option ascii -> string -> bool) -> bool)
    (greedy : bool) (k k' : option ascii -> string -> bool) :
  (forall prev s j j',
      same_up_to_case j j' ->
      step prev s j = step' (lower_prev prev) (toLowerCase s) j') ->
  same_up_to_case k k' ->
  forall fuel prev s,
    star_loop step greedy k fuel prev s
    = star_loop step' greedy k' fuel (lower_prev prev) (toLowerCase s).
Proof.
  intros Hstep Hk. induction fuel as [|fuel IH]; intros prev s; simpl.
  - rewrite (Hk prev s). reflexivity.
  - rewrite (Hk prev s).
    rewrite (Hstep prev s _
               (fun prev1 s1 =>
                  if (String.length s1 <? String.length (toLowerCase s))%nat
                  then star_loop step' greedy k' fuel prev1 s1
                  else false)).
    + reflexivity.
    + intros prev1 s1. rewrite !length_toLowerCase, IH. reflexivity.
Qed.

Lemma run_lower (r : regex) :
  forall prev s k k',
    same_up_to_case k k' ->
    run flag_i r prev s k
    = run flag_i r (lower_prev prev) (toLowerCase s) k'.
Proof.
  induction r as [|cs|r1 IH1 r2 IH2|r1 IH1 r2 IH2|greedy r IH|];
    intros prev s k k' Hk; simpl.
  - apply Hk.
  - destruct s as [|a s]; simpl; [reflexivity|].
    rewrite unit_in_lower_unit, (Hk (Some a) s). reflexivity.
  - apply IH1. intros prev1 s1. apply IH2. exact Hk.
  - rewrite (IH1 prev s k k' Hk), (IH2 prev s k k' Hk). reflexivity.
  - rewrite length_toLowerCase. apply star_loop_lower; [exact IH | exact Hk].
  - rewrite at_line_start_lower, (Hk prev s). reflexivity.
Qed.

Lemma search_lower (r : regex) (s : string) :
  forall prev,
    search flag_i r prev s
    = search flag_i r (lower_prev prev) (toLowerCase s).
Proof.
  induction s as [|a s IH]; intros prev; simpl.
  - rewrite (run_lower r prev "" (fun _ _ => true) (fun _ _ => true));
      [reflexivity | intros p t; reflexivity].
  - rewrite (run_lower r prev (String a s) (fun _ _ => true) (fun _ _ => true));
      [|intros p t; reflexivity].
    simpl. rewrite (IH (Some a)). reflexivity.
Qed.

Lemma test_lower (r : regex) (s : string) :
  test flag_i r (toLowerCase s) = test flag_i r s.
Proof. unfold test. rewrite (search_lower r s None). reflexivity. Qed.

Lemma calculateBasicReadmeScore_lower (content : string) :
  calculateBasicReadmeScore (toLowerCase content)
  = calculateBasicReadmeScore content.
Proof.
  unfold calculateBasicReadmeScore, len.
  rewrite !test_lower, length_toLowerCase. reflexivity.
Qed.

(** X18: [calculateBasicReadmeScore] does not look at the letter case: two
    READMEs that differ in letter case only have the same score. *)
Theorem basic_score_ignores_letter_case (content1 content2 : string) :
  toLowerCase content1 = toLowerCase content2 ->
  calculateBasicReadmeScore content1 = calculateBasicReadmeScore content2.
Proof.
  intros H.
  rewrite <- (calculateBasicReadmeScore_lower content1),
    <- (calculateBasicReadmeScore_lower content2), H.
  reflexivity.
Qed.

Lemma basic_score_ignores_letter_case_witness :
  calculateBasicReadmeScore "INSTALLATION and Usage"
  = calculateBasicReadmeScore "Installation AND usage".
Proof.
  apply (basic_score_ignores_letter_case "INSTALLATION and Usage"
           "Installation AND usage").
  reflexivity.
Defined.

(** ** The roadmap *)

Lemma exceeds_later (now1 now2 : Z) (context : RoadmapContext) :
  now1 <= now2 ->
  exceeds (daysSinceUpdate now1 context) 180 = true ->
  exceeds (daysSinceUpdate now2 context) 180 = true.
Proof.
  intros H. rewrite !exceeds_181_days.
  intros (t & E & Ht). exists t. split; [exact E | lia].
Qed.

(** X19: The heuristic roadmap has from two to five items, all different. *)
Theorem basic_roadmap_size (now : Z) (context : RoadmapContext) :
  (2 <= List.length (generateBasicRoadmap now context) <= 5)%nat /\
  NoDup (generateBasicRoadmap now context).
Proof.
  rewrite generateBasicRoadmap_eq.
  destruct (hasTests context), (hasCICD context),
    (exceeds (daysSinceUpdate now context) 180); simpl;
    (split; [lia|]);
    repeat (constructor; [simpl; intuition discriminate|]); constructor.
Qed.

(** X20: As time passes the heuristic roadmap of a context only grows: every
    item suggested at one time is suggested at any later time. *)
Theorem basic_roadmap_grows_with_time (now1 now2 : Z) (context : RoadmapContext) :
  now1 <= now2 ->
  incl (generateBasicRoadmap now1 context) (generateBasicRoadmap now2 context).
Proof.
  intros H. rewrite !generateBasicRoadmap_eq.
  pose proof (exceeds_later now1 now2 context H) as He.
  destruct (exceeds (daysSinceUpdate now1 context) 180).
  - rewrite (He eq_refl). apply incl_refl.
  - destruct (hasTests context), (hasCICD context),
      (exceeds (daysSinceUpdate now2 context) 180); simpl;
      intros item Hi; simpl in *; tauto.
Qed.

Lemma basic_roadmap_grows_with_time_witness :
  incl (generateBasicRoadmap 1700000000000 (tested_project 1690000000000))
    (generateBasicRoadmap 1710000000000 (tested_project 1690000000000)).
Proof.
  apply (basic_roadmap_grows_with_time 1700000000000 1710000000000
           (tested_project 1690000000000)).
  lia.
Defined.

(** ** Answers and fallbacks *)

Section Answers.

Variable analyze : AIProvider -> AIAnalysisRequest -> result AIAnalysisResponse.

Lemma usable_ai_adapter (self : DocumentationAnalyzer)
    (readmeContent : option string) (a : AIAnalyzer) (text : string) :
  usable_ai self readmeContent = Some (a, text) ->
  readmeContent = Some text /\ text <> "" /\ aiAnalyzer self = Some a /\
  exists p, aiProvider a = Some p.
Proof.
  unfold usable_ai, isAIAvailable.
  destruct readmeContent as [t|]; [|discriminate].
  destruct (aiAnalyzer self) as [b|]; [|discriminate].
  destruct t as [|c t]; simpl; [discriminate|].
  destruct (aiProvider b) as [p|] eqn:P; [|discriminate].
  intros E. injection E as <- <-.
  repeat split; try discriminate. eauto.
Qed.

(** X11: When the adapter is usable, the README quality of the documentation
    analyzer is the quality score that [analyzeReadme] returns, and
    [analyzeReadme] does return: the handler of the documentation analyzer,
    with its own scorer, is never entered. *)
Theorem readme_quality_with_adapter (self : DocumentationAnalyzer)
    (readmeContent : option string) (a : AIAnalyzer) (text : string) :
  usable_ai self readmeContent = Some (a, text) ->
  exists r,
    analyzeReadme analyze a text = Return r /\
    readmeQuality analyze self readmeContent = Return (qualityScore r).
Proof.
  intros Hu. destruct (usable_ai_adapter _ _ _ _ Hu) as (_ & _ & _ & p & Hp).
  assert (exists r, analyzeReadme analyze a text = Return r) as [r Hr].
  { unfold analyzeReadme. rewrite Hp. cbv zeta.
    apply try_catch_returns. intros e. eauto. }
  exists r. split; [exact Hr|].
  unfold readmeQuality. rewrite Hu, Hr. reflexivity.
Qed.

(** X8: When the call fails, or the answer is no JSON, or it is the JSON text
    null, [analyzeReadme] returns the score of [calculateBasicReadmeScore]
    and no suggestions, and that score is the README quality of a
    documentation analyzer that holds the adapter. *)
Theorem readme_analysis_falls_back (p : AIProvider) (text : string) :
  falls_back analyze p text ->
  analyzeReadme analyze {| aiProvider := Some p |} text
    = Return {| qualityScore := JNumber (of_Z (calculateBasicReadmeScore text));
                suggestions := JArray [] |} /\
  (text <> "" ->
   readmeQuality analyze {| aiAnalyzer := Some {| aiProvider := Some p |} |}
     (Some text)
     = Return (JNumber (of_Z (calculateBasicReadmeScore text)))).
Proof.
  intros H. split.
  - apply analyzeReadme_fallback, H.
  - intros Ht. apply readmeQuality_fallback; assumption.
Qed.

(** X7: The code-quality operation with an adapter.  When the call fails or the
    answer is no JSON or is null, it returns no insights and the score 70.
    When the answer parses to another value, the score is its [score]
    member when that is truthy and 70 otherwise, so for a score of 0 too,
    and the insights are its [insights] member or the empty list. *)
Theorem code_quality_results (p : AIProvider) (files : list SourceFile) :
  let request := code_quality_request (code_snapshot files) in
  let outcome := analyzeCodeQuality analyze {| aiProvider := Some p |} files in
  ((exists e, analyze p request = Throw e) \/
   (exists response e,
       analyze p request = Return response /\
       JSON_parse (result_text response) = Throw e) \/
   (exists response,
       analyze p request = Return response /\
       JSON_parse (result_text response) = Return JNull) ->
   outcome = Return {| insights := JArray [];
                       architectureScore := JNumber (of_Z 70) |}) /\
  (forall response parsed,
      analyze p request = Return response ->
      JSON_parse (result_text response) = Return parsed ->
      parsed <> JNull ->
      exists score found,
        get parsed "score" = Return score /\
        get parsed "insights" = Return found /\
        outcome = Return {| insights := or_else found (JArray []);
                            architectureScore := or_else score (JNumber (of_Z 70)) |} /\
        (truthy score = false ->
         or_else score (JNumber (of_Z 70)) = JNumber (of_Z 70)) /\
        (truthy score = true -> or_else score (JNumber (of_Z 70)) = score)).
Proof.
  cbv zeta.
  cbv beta iota zeta delta [analyzeCodeQuality aiProvider].
  fold (code_snapshot files). fold (code_quality_request (code_snapshot files)).
  split.
  - intros [[e H] | [(response & e & H & P) | (response & H & P)]];
      rewrite H; simpl; [reflexivity | |]; rewrite P; reflexivity.
  - intros response parsed Ha Hp Hn.
    pose proof (JSON_parse_defined _ _ Hp) as Hu.
    destruct (get_defined parsed "score" Hu Hn) as [score Hs].
    destruct (get_defined parsed "insights" Hu Hn) as [found Hf].
    exists score, found. split; [exact Hs|]. split; [exact Hf|].
    split.
    + rewrite Ha. cbn [bind]. rewrite Hp. cbn [bind]. rewrite Hf. cbn [bind].
      rewrite Hs. reflexivity.
    + unfold or_else. split; intros ->; reflexivity.
Qed.

End Answers.

Lemma readme_quality_with_adapter_witness :
  exists r,
    analyzeReadme failing_vendor {| aiProvider := Some openai_adapter |}
      "license" = Return r /\
    readmeQuality failing_vendor with_ai (Some "license")
      = Return (qualityScore r).
Proof.
  apply (readme_quality_with_adapter failing_vendor with_ai (Some "license")
           {| aiProvider := Some openai_adapter |} "license").
  reflexivity.
Defined.

Lemma readme_analysis_falls_back_witness :
  analyzeReadme failing_vendor {| aiProvider := Some openai_adapter |} "license"
    = Return {| qualityScore := JNumber (of_Z (calculateBasicReadmeScore "license"));
                suggestions := JArray [] |} /\
  ("license" <> "" ->
   readmeQuality failing_vendor
     {| aiAnalyzer := Some {| aiProvider := Some openai_adapter |} |}
     (Some "license")
     = Return (JNumber (of_Z (calculateBasicReadmeScore "license")))).
Proof.
  apply (readme_analysis_falls_back failing_vendor openai_adapter "license").
  left. eexists. reflexivity.
Defined.

Lemma code_quality_results_witness :
  analyzeCodeQuality failing_vendor {| aiProvider := Some openai_adapter |}
    [ {| path := "src/index.ts"; file_content := "export {};" |} ]
  = Return {| insights := JArray [];
              architectureScore := JNumber (of_Z 70) |}.
Proof.
  apply (proj1 (code_quality_results failing_vendor openai_adapter
                  [ {| path := "src/index.ts"; file_content := "export {};" |} ])).
  left. eexists. reflexivity.
Defined.
